(** * CyberShield web client: session / view controller (script.js)

    A shallow embedding of [script.js] and the properties of its session
    and view handling.  The browser is the environment of the script:
    - [sessionStorage]: the tab's [Storage] object, a finite map from keys
      to strings, with room for the two items the script stores;
    - [document]: the elements of the page in document order, each with the
      attributes and properties the script reads or writes (the page itself,
      index.html, is not part of the sources: every property below is stated
      for an arbitrary page); nesting of elements is not modelled, and what
      is assigned to [innerHTML] or [textContent] is kept as text;
    - a log of the observable effects ([alert], [console.error], [fetch]);
    - the replies of the gateway, which arrive as events and may carry any
      JSON value; numbers are doubles; a string is the sequence of the
      bytes of its UTF-8 encoding.

    JavaScript exceptions are explicit: every operation runs in a small
    state-and-exception monad [M], [try_catch] is the [try]/[catch]
    statement, and a conversion to a string that throws is a computation
    that throws.  An [async] handler is split at its [await]: the part up
    to the [fetch] call runs when the form is submitted, the rest runs when
    the request settles. *)
From Stdlib Require Import ZArith DecimalString Floats.
From stdpp Require Import base option list strings gmap.

Local Open Scope string_scope.
Local Open Scope Z_scope.
Set Warnings "-register-all".

(** ** JavaScript values that come out of [response.json()] *)

Module Js.

(** Parsed JSON.  A number is a double ([JSON.parse] reads [-0] and, from
    [1e999], an infinity); an object keeps its members in the order of the
    text. *)
Inductive json : Type :=
  | JNull
  | JBool (b : bool)
  | JNum (x : float)
  | JStr (s : string)
  | JArr (items : list json)
  | JObj (members : list (string * json)).

(** A JavaScript value as the script sees one: [None] is [undefined]. *)
Definition value : Type := option json.

Definition undefined : value := None.

(** Three built-ins are left to the runtime, since no property below
    depends on what they return: [String(x)] for a number [x], [Number(s)]
    for a string [s], and [parseInt(s)]. *)
Class Builtins : Type := {
  Number_toString : float → string;
  StringToNumber : string → float;
  parseInt : string → float
}.

(** The member of an object for a key; a key that occurs twice takes its
    last value, as [JSON.parse] does. *)
Fixpoint member (k : string) (members : list (string * json)) : value :=
  match members with
  | [] => None
  | (k', v) :: rest =>
      match member k rest with
      | Some v' => Some v'
      | None => if String.eqb k' k then Some v else None
      end
  end.

(** [String(v)], the conversion made by a template literal and by
    [Storage.setItem]; [None] when it throws a [TypeError].  An object made
    by [JSON.parse] inherits [toString] from [Object.prototype] unless it
    has a member of that name; such a member is no function, the inherited
    [valueOf] returns the object itself, and the conversion throws.  An
    array joins the conversions of its items with a comma and prints
    [null] items as the empty string. *)
Fixpoint json_toString `{Builtins} (v : json) : option string :=
  match v with
  | JNull => Some "null"
  | JBool true => Some "true"
  | JBool false => Some "false"
  | JNum x => Some (Number_toString x)
  | JStr s => Some s
  | JArr items =>
      let item x := match x with JNull => Some "" | _ => json_toString x end in
      (fix join (xs : list json) : option string :=
         match xs with
         | [] => Some ""
         | [x] => item x
         | x :: rest => s ← item x ; t ← join rest ; Some (s +:+ "," +:+ t)
         end) items
  | JObj members =>
      match member "toString" members with
      | Some _ => None
      | None => Some "[object Object]"
      end
  end.

Definition ToString `{Builtins} (v : value) : option string :=
  match v with
  | None => Some "undefined"
  | Some j => json_toString j
  end.

(** [Boolean(v)]: the falsy values are [undefined], [null], [false], the
    zeros, [NaN] and the empty string. *)
Definition ToBoolean (v : value) : bool :=
  match v with
  | None | Some JNull | Some (JBool false) | Some (JStr "") => false
  | Some (JNum x) => negb (is_zero x || is_nan x)
  | Some _ => true
  end.

(** Truthiness of what [Storage.getItem] returns: [null] or a string. *)
Definition item_truthy (v : option string) : bool :=
  match v with
  | None | Some "" => false
  | Some _ => true
  end.

(** [String.prototype.includes]. *)
Fixpoint String_includes (s t : string) : bool :=
  String.prefix t s ||
  match s with
  | EmptyString => false
  | String _ s' => String_includes s' t
  end.

(** [Array.prototype.includes] for a string argument: some item is that
    very string. *)
Definition Array_includes (items : list json) (t : string) : bool :=
  existsb (fun x => match x with JStr s => String.eqb s t | _ => false end) items.

End Js.
Export Js.

(** ** The browser state the script works on *)

(** What was last assigned to an element's content: [textContent] or
    [innerHTML]. *)
Inductive content : Type :=
  | TextContent (text : string)
  | InnerHTML (html : string).

(** An element of the page, with its [style.display] and, for a form
    control, its [name], [checked] and [value]. *)
Record element : Type := Element {
  el_tag : string;
  el_id : string;
  el_name : string;
  el_class : list string;
  el_checked : bool;
  el_value : string;
  el_display : string;
  el_content : content
}.

Definition with_display (d : string) (e : element) : element :=
  Element (el_tag e) (el_id e) (el_name e) (el_class e) (el_checked e)
          (el_value e) d (el_content e).

Definition with_value (v : string) (e : element) : element :=
  Element (el_tag e) (el_id e) (el_name e) (el_class e) (el_checked e)
          v (el_display e) (el_content e).

Definition with_content (c : content) (e : element) : element :=
  Element (el_tag e) (el_id e) (el_name e) (el_class e) (el_checked e)
          (el_value e) (el_display e) c.

Definition has_class (c : string) (e : element) : bool :=
  existsb (String.eqb c) (el_class e).

Inductive exn : Type :=
  | TypeError      (* a property of null or undefined, a call of a non-function,
                      a conversion that has no result *)
  | SyntaxError    (* [response.json()] on a body that is not JSON *)
  | FetchFailed.   (* [fetch] rejected: no response was obtained *)

Record request : Type := Request {
  req_url : string;
  req_method : string;
  req_content_type : string;
  req_body : json     (* the object handed to [JSON.stringify] *)
}.

Inductive effect : Type :=
  | Alert (message : string)
  | ConsoleError (message : string) (error : exn)
  | Fetch (r : request).

(** An element object is named by its position in the document: the script
    never adds, removes or moves an element. *)
Abbreviation ref := nat (only parsing).

Record world : Type := World {
  sessionStorage : gmap string string;
  document : list element;
  log : list effect             (* oldest first *)
}.

(** ** Computations of the script: state and exceptions *)

Inductive result (A : Type) : Type :=
  | Return (a : A)
  | Throw (e : exn).
Arguments Return {A} a.
Arguments Throw {A} e.

Definition M (A : Type) : Type := world → result A * world.

#[export] Instance M_ret : MRet M := λ A a w, (Return a, w).

#[export] Instance M_bind : MBind M := λ A B f m w,
  match m w with
  | (Return a, w') => f a w'
  | (Throw e, w') => (Throw e, w')
  end.

Definition throw {A} (e : exn) : M A := λ w, (Throw e, w).

(** [try { body } catch (error) { handler error }] *)
Definition try_catch {A} (body : M A) (handler : exn → M A) : M A := λ w,
  match body w with
  | (Return a, w') => (Return a, w')
  | (Throw e, w') => handler e w'
  end.

Definition when (b : bool) (m : M unit) : M unit :=
  if b then m else mret tt.

(** *** Storage *)

Definition getItem (key : string) : M (option string) := λ w,
  (Return (sessionStorage w !! key), w).

(** [String(v)] as a computation: a [TypeError] is thrown where the
    conversion has no result. *)
Definition to_string `{Builtins} (v : value) : M string :=
  match ToString v with
  | Some s => mret s
  | None => throw TypeError
  end.

Definition store (key s : string) : M unit := λ w,
  (Return tt, World (<[key := s]> (sessionStorage w)) (document w) (log w)).

(** [sessionStorage.setItem(key, v)] converts [v] to a string first. *)
Definition setItem `{Builtins} (key : string) (v : value) : M unit :=
  to_string v ≫= store key.

Definition removeItem (key : string) : M unit := λ w,
  (Return tt, World (delete key (sessionStorage w)) (document w) (log w)).

(** *** Effects *)

Definition emit (e : effect) : M unit := λ w,
  (Return tt, World (sessionStorage w) (document w) (log w ++ [e])).

Definition alert (message : string) : M unit := emit (Alert message).

Definition console_error (message : string) (error : exn) : M unit :=
  emit (ConsoleError message error).

Definition fetch (r : request) : M unit := emit (Fetch r).

(** *** Document *)

Fixpoint find_index {A} (p : A → bool) (l : list A) : option nat :=
  match l with
  | [] => None
  | x :: l' => if p x then Some 0%nat else S <$> find_index p l'
  end.

(** The first element with that id.  An element without an [id] attribute
    has the empty string for [el_id] and is the element of no id. *)
Definition element_by_id (id : string) (d : list element) : option ref :=
  if String.eqb id "" then None
  else find_index (λ e, String.eqb (el_id e) id) d.

(** [document.getElementById(id)]: the first element with that id, or
    [null]. *)
Definition getElementById (id : string) : M (option ref) := λ w,
  (Return (element_by_id id (document w)), w).

(** Dereferencing what [getElementById] or [querySelector] returned. *)
Definition deref {A} (r : option A) : M A :=
  match r with
  | Some x => mret x
  | None => throw TypeError
  end.

Definition update_element (r : ref) (f : element → element) : M unit := λ w,
  (Return tt, World (sessionStorage w) (alter f r (document w)) (log w)).

(** [e.value]; the elements the script reads a value of are taken to be
    form controls. *)
Definition read_value (r : ref) : M string := λ w,
  (Return (default "" (el_value <$> document w !! r)), w).

(** [document.querySelectorAll('.view').forEach(view => view.style.display = 'none')] *)
Definition hide_view (e : element) : element :=
  if has_class "view" e then with_display "none" e else e.

Definition hide_views : M unit := λ w,
  (Return tt, World (sessionStorage w) (hide_view <$> document w) (log w)).

(** ** View management *)

Definition API_BASE_URL : string :=
  "https://cybershield-fastapi-production.up.railway.app/api".

Definition showView (viewId : string) : M unit :=
  hide_views ;;
  viewToShow ← getElementById viewId ;
  match viewToShow with
  | Some v => update_element v (with_display "block")
  | None => mret tt
  end ;;
  when (String.eqb viewId "dashboard-view")
    (userEmail ← getItem "currentUserEmail" ;
     when (item_truthy userEmail)
       (welcome ← getElementById "welcome-message" ;
        w ← deref welcome ;
        update_element w
          (with_content (TextContent ("Welcome, " +:+ default "" userEmail))))).

(** ** Navigation *)

Definition goToDashboard : M unit :=
  userId ← getItem "currentUserId" ;
  if item_truthy userId then showView "dashboard-view"
  else showView "login-view".

Definition handleSignOut : M unit :=
  removeItem "currentUserId" ;;
  removeItem "currentUserEmail" ;;
  alert "You have been signed out." ;;
  showView "home-view".

(** ** Property access and the built-ins the script calls *)

(** [v.k] for the keys the script reads ([id], [email], [detail],
    [overall_summary], ...): none of them is inherited from a prototype, so
    only an object with such a member has the property.  Reading a property
    of [undefined] or [null] throws. *)
Definition field (j : json) (k : string) : value :=
  match j with
  | JObj members => member k members
  | _ => undefined
  end.

Definition prop (v : value) (k : string) : M value :=
  match v with
  | None | Some JNull => throw TypeError
  | Some j => mret (field j k)
  end.

(** [x.includes(t)]: strings and arrays have the method; on anything else
    the call throws. *)
Definition includes (x : value) (t : string) : M bool :=
  match x with
  | Some (JStr s) => mret (String_includes s t)
  | Some (JArr items) => mret (Array_includes items t)
  | _ => throw TypeError
  end.

(** [a || b] *)
Definition or_else (a b : value) : value :=
  if ToBoolean a then a else b.

(** [v > 0]: [undefined] counts as [NaN], [null] as zero, [true] as one; an
    array or an object is first converted as [String] converts it, which
    may throw, and the string is read as a number. *)
Definition gt_zero `{Builtins} (v : value) : M bool :=
  match v with
  | None | Some JNull => mret false
  | Some (JBool b) => mret b
  | Some (JNum x) => mret (0 <? x)%float
  | Some j => s ← to_string (Some j) ; mret (0 <? StringToNumber s)%float
  end.

(** ** What the gateway answers *)

Inductive reply : Type :=
  | NoResponse                                     (* [fetch] rejects *)
  | Response (status : Z) (body : option json).    (* [None]: the body is not JSON *)

Record response : Type := { res_status : Z; res_body : option json }.

(** [response.ok]: the status is in the range 200-299. *)
Definition status_ok (status : Z) : bool :=
  (200 <=? status) && (status <=? 299).

Definition response_ok (r : response) : bool := status_ok (res_status r).

(** [await fetch(...)] *)
Definition await_fetch (r : reply) : M response :=
  match r with
  | NoResponse => throw FetchFailed
  | Response status body => mret {| res_status := status; res_body := body |}
  end.

(** [await response.json()] *)
Definition response_json (r : response) : M json :=
  match res_body r with
  | Some j => mret j
  | None => throw SyntaxError
  end.

Definition post (path : string) (body : json) : M unit :=
  fetch (Request (API_BASE_URL +:+ path) "POST" "application/json" body).

(** A request that is in flight, with the element objects its handler
    holds on to. *)
Inductive pending : Type :=
  | RegistrationSent
  | LoginSent
  | ScanSent (urlInput resultDiv : ref).

(** ** Registration *)

(** [form.querySelector('input[name="scope"]:checked')] *)
Definition querySelector_checked (name : string) (form : list element) : option element :=
  List.find (λ e, String.eqb (el_tag e) "input" && String.eqb (el_name e) name
                  && el_checked e) form.

(** [form.querySelector('#id')], for an id that is an identifier, as the
    seven ids below are. *)
Definition querySelector_id (id : string) (form : list element) : option element :=
  List.find (λ e, String.eqb (el_id e) id) form.

Definition field_value (id : string) (form : list element) : M json :=
  e ← deref (querySelector_id id form) ; mret (JStr (el_value e)).

(** [handleRegistration] up to its [fetch]; [form] is [event.target], given
    by its descendants in document order.  [event.preventDefault()], here
    and in the other two submit handlers, touches nothing that is modelled. *)
Definition handleRegistration (form : list element) : M (option pending) :=
  checked ← deref (querySelector_checked "scope" form) ;
  let scope := el_value checked in
  email ← field_value "reg-email" form ;
  let userData := [("scope", JStr scope); ("email", email)] in
  userData ←
    (if String.eqb scope "individual" then
       first_name ← field_value "reg-first-name" form ;
       last_name ← field_value "reg-last-name" form ;
       mobile ← field_value "reg-mobile" form ;
       mret (userData ++ [("first_name", first_name); ("last_name", last_name);
                          ("mobile", mobile)])%list
     else if String.eqb scope "enterprise" then
       company_name ← field_value "reg-company-name" form ;
       company_website ← field_value "reg-company-website" form ;
       phone ← field_value "reg-phone" form ;
       mret (userData ++ [("company_name", company_name);
                          ("company_website", company_website); ("phone", phone)])%list
     else mret userData) ;
  post "/register" (JObj userData) ;;
  mret (Some RegistrationSent).

Definition connect_error_registration : string :=
  "Could not connect to the backend server. Check the API URL and network connection.".

(** The [try] block of [handleRegistration], from the moment its request
    settles. *)
Definition handleRegistration_try `{Builtins} (r : reply) : M unit :=
  response ← await_fetch r ;
  result ← response_json response ;
  if response_ok response then
    alert "Registration successful! Please sign in with your email." ;;
    showView "login-view"
  else
    detail ← prop (Some result) "detail" ;
    message ← to_string (or_else detail (Some (JStr "An unknown error occurred."))) ;
    alert ("Registration failed: " +:+ message).

(** [handleRegistration] from the moment its request settles. *)
Definition handleRegistration_settled `{Builtins} (r : reply) : M unit :=
  try_catch (handleRegistration_try r)
    (λ error,
       console_error "Network error during registration:" error ;;
       alert connect_error_registration).

(** ** Login *)

(** [handleLogin] up to its [fetch]. *)
Definition handleLogin : M (option pending) :=
  email ← (getElementById "login-email" ≫= deref) ≫= read_value ;
  post "/login" (JObj [("email", JStr email)]) ;;
  mret (Some LoginSent).

Definition connect_error_login : string :=
  "Could not connect to the backend server. Check network connection.".

(** The [try] block of [handleLogin], from the moment its request
    settles. *)
Definition handleLogin_try `{Builtins} (r : reply) : M unit :=
  response ← await_fetch r ;
  result ← response_json response ;
  if response_ok response then
    alert "Login successful!" ;;
    (prop (Some result) "id" ≫= setItem "currentUserId") ;;
    (prop (Some result) "email" ≫= setItem "currentUserEmail") ;;
    goToDashboard
  else
    detail ← prop (Some result) "detail" ;
    message ← to_string (or_else detail (Some (JStr "Invalid email or user not found."))) ;
    alert ("Login failed: " +:+ message).

(** [handleLogin] from the moment its request settles. *)
Definition handleLogin_settled `{Builtins} (r : reply) : M unit :=
  try_catch (handleLogin_try r)
    (λ error,
       console_error "Network error during login:" error ;;
       alert connect_error_login).

(** ** URL scan *)

Definition dq : string := String (Ascii.ascii_of_nat 34) "".
Definition nl : string := String (Ascii.ascii_of_nat 10) "".

Fixpoint spaces (n : nat) : string :=
  match n with
  | O => ""
  | S n' => " " +:+ spaces n'
  end.

(** One line of a template literal: indentation, text, line break. *)
Definition line (indent : nat) (text : string) : string :=
  spaces indent +:+ text +:+ nl.

Definition p_class (class text : string) : string :=
  "<p class=" +:+ dq +:+ class +:+ dq +:+ ">" +:+ text +:+ "</p>".

(** [handleUrlScan] up to its [fetch]. *)
Definition handleUrlScan `{Builtins} : M (option pending) :=
  urlInput ← getElementById "url-input" ≫= deref ;
  url ← read_value urlInput ;
  userId ← getItem "currentUserId" ;
  if negb (item_truthy userId) then
    alert "You must be logged in to perform a scan." ;;
    mret None
  else if String.eqb url "" then
    alert "Please enter a URL to scan." ;;
    mret None
  else
    resultDiv ← getElementById "url-scan-result" ≫= deref ;
    update_element resultDiv
      (with_content (InnerHTML (p_class "text-warning" "Scanning... This may take a moment."))) ;;
    post "/scan" (JObj [("url", JStr url);
                        ("user_id", JNum (parseInt (default "" userId)))]) ;;
    mret (Some (ScanSent urlInput resultDiv)).

(** The status class of a scan result, from its [overall_summary]. *)
Definition statusClass_of (data : json) : M string :=
  summary ← prop (Some data) "overall_summary" ;
  danger ← includes summary "DANGER" ;
  if (danger : bool) then (mret "text-danger" : M string)
  else
    summary ← prop (Some data) "overall_summary" ;
    warning ← includes summary "WARNING" ;
    if (warning : bool) then (mret "text-warning" : M string) else mret "text-success".

(** The two template literals added to [detailsHtml] and the one assigned
    to [targetElement.innerHTML], with the substitutions already converted
    to strings. *)
Definition virustotal_template (status flag_class malicious_count harmless_count
    results_url : string) : string :=
  nl +:+
  line 12 "<p><strong>VirusTotal Summary:</strong></p>" +:+
  line 12 "<ul>" +:+
  line 16 ("<li>Status: " +:+ status +:+ "</li>") +:+
  line 16 ("<li>Malicious Flags: <span class=" +:+ dq +:+ flag_class +:+ dq +:+ ">"
           +:+ malicious_count +:+ "</span></li>") +:+
  line 16 ("<li>Harmless Checks: " +:+ harmless_count +:+ "</li>") +:+
  line 16 ("<li><a href=" +:+ dq +:+ results_url +:+ dq +:+ " target="
           +:+ dq +:+ "_blank" +:+ dq +:+ ">View Full VT Report</a></li>") +:+
  line 12 "</ul>" +:+
  spaces 8.

Definition google_safe_browsing_template (status_class status message : string) : string :=
  nl +:+
  line 12 "<p><strong>Google Safe Browsing:</strong></p>" +:+
  line 12 "<ul>" +:+
  line 16 ("<li>Status: <span class=" +:+ dq +:+ status_class +:+ dq +:+ ">"
           +:+ status +:+ "</span></li>") +:+
  line 16 ("<li>Message: " +:+ message +:+ "</li>") +:+
  line 12 "</ul>" +:+
  spaces 8.

(** The substitutions are evaluated and converted from left to right; the
    first conversion that throws ends the evaluation. *)
Definition virustotal_html `{Builtins} (vt : value) : M string :=
  status ← prop vt "status" ≫= to_string ;
  malicious_count ← prop vt "malicious_count" ;
  positive ← gt_zero malicious_count ;
  let flag_class := if (positive : bool) then "text-danger" else "text-success" in
  malicious_count ← prop vt "malicious_count" ≫= to_string ;
  harmless_count ← prop vt "harmless_count" ≫= to_string ;
  results_url ← prop vt "results_url" ≫= to_string ;
  mret (virustotal_template status flag_class malicious_count harmless_count results_url).

Definition google_safe_browsing_html `{Builtins} (gsb : value) : M string :=
  status ← prop gsb "status" ;
  let status_class :=
    match status with
    | Some (JStr "SAFE") => "text-success"
    | _ => "text-danger"
    end in
  status ← prop gsb "status" ≫= to_string ;
  message ← prop gsb "message" ≫= to_string ;
  mret (google_safe_browsing_template status_class status message).

Definition scan_result_html (statusClass url overall_summary detailsHtml clock : string) :
    string :=
  nl +:+
  line 8 ("<h4 class=" +:+ dq +:+ statusClass +:+ dq +:+ ">Scan Result for: "
          +:+ url +:+ "</h4>") +:+
  line 8 (p_class ("h5 " +:+ statusClass) overall_summary) +:+
  line 8 "<hr>" +:+
  line 8 detailsHtml +:+
  line 8 (p_class "text-muted small" ("Report generated: " +:+ clock)) +:+
  spaces 4.

(** [displayScanResult(data, targetElement)]; [clock] is what
    [new Date().toLocaleTimeString()] returns at that moment. *)
Definition displayScanResult `{Builtins} (data : json) (targetElement : ref)
    (clock : string) : M unit :=
  statusClass ← statusClass_of data ;
  details ← prop (Some data) "details" ;
  vt ← prop details "virustotal" ;
  detailsHtml ← (if ToBoolean vt then virustotal_html vt else mret "") ;
  details ← prop (Some data) "details" ;
  gsb ← prop details "google_safe_browsing" ;
  detailsHtml ← (if ToBoolean gsb then
                   html ← google_safe_browsing_html gsb ; mret (detailsHtml +:+ html)
                 else mret detailsHtml) ;
  url ← prop (Some data) "url" ≫= to_string ;
  overall_summary ← prop (Some data) "overall_summary" ≫= to_string ;
  update_element targetElement
    (with_content (InnerHTML
       (scan_result_html statusClass url overall_summary detailsHtml clock))).

Definition connect_error_scan : string :=
  p_class "text-danger" "Failed to connect to API for scan.".

(** The [try] block of [handleUrlScan], from the moment its request
    settles. *)
Definition handleUrlScan_try `{Builtins} (urlInput resultDiv : ref) (r : reply)
    (clock : string) : M unit :=
  response ← await_fetch r ;
  result ← response_json response ;
  if response_ok response then
    displayScanResult result resultDiv clock ;;
    update_element urlInput (with_value "")
  else
    detail ← prop (Some result) "detail" ;
    message ← to_string (or_else detail (Some (JStr "Server error."))) ;
    update_element resultDiv
      (with_content (InnerHTML (p_class "text-danger" ("Scan failed: " +:+ message)))).

(** [handleUrlScan] from the moment its request settles. *)
Definition handleUrlScan_settled `{Builtins} (urlInput resultDiv : ref) (r : reply)
    (clock : string) : M unit :=
  try_catch (handleUrlScan_try urlInput resultDiv r clock)
    (λ error,
       console_error "Network error during URL scan:" error ;;
       update_element resultDiv (with_content (InnerHTML connect_error_scan))).

(** ** The page: load, events, requests in flight *)

(** The [DOMContentLoaded] listener, first step. *)
Definition onDOMContentLoaded : M unit :=
  userId ← getItem "currentUserId" ;
  if item_truthy userId then showView "dashboard-view" else showView "home-view".

Inductive event : Type :=
  | ClickSignUp
  | ClickSignIn
  | ClickSignOut
  | ClickDashboard
  | SubmitRegistration (form : list element)
  | SubmitLogin
  | SubmitScan
  | Settled (i : nat) (r : reply) (clock : string).   (* the i-th request in flight settles *)

Record controller : Type := Controller {
  page : world;
  inflight : list pending
}.

(** A listener that only acts on the page; an exception that escapes it
    ends the listener and nothing else. *)
Definition listen (m : M unit) (c : controller) : controller :=
  Controller (m (page c)).2 (inflight c).

(** A submit listener: the handler runs up to its [await]. *)
Definition submit (m : M (option pending)) (c : controller) : controller :=
  match m (page c) with
  | (Return (Some p), w) => Controller w (inflight c ++ [p])
  | (_, w) => Controller w (inflight c)
  end.

Definition settle `{Builtins} (p : pending) (r : reply) (clock : string) : M unit :=
  match p with
  | RegistrationSent => handleRegistration_settled r
  | LoginSent => handleLogin_settled r
  | ScanSent urlInput resultDiv => handleUrlScan_settled urlInput resultDiv r clock
  end.

Definition dispatch `{Builtins} (e : event) (c : controller) : controller :=
  match e with
  | ClickSignUp => listen (showView "registration-view") c
  | ClickSignIn => listen (showView "login-view") c
  | ClickSignOut => listen handleSignOut c
  | ClickDashboard => listen goToDashboard c
  | SubmitRegistration form => submit (handleRegistration form) c
  | SubmitLogin => submit handleLogin c
  | SubmitScan => submit handleUrlScan c
  | Settled i r clock =>
      match inflight c !! i with
      | Some p => Controller ((settle p r clock) (page c)).2 (delete i (inflight c))
      | None => c
      end
  end.

Definition run `{Builtins} (events : list event) (c : controller) : controller :=
  foldl (λ c e, dispatch e c) c events.

(** ** What the user sees, and what the session holds *)

(** An element is visible unless its [style.display] is ['none']. *)
Definition is_visible (e : element) : bool :=
  negb (String.eqb (el_display e) "none").

(** The ids of the visible view elements, in document order. *)
Definition visible_views (d : list element) : list string :=
  el_id <$> List.filter (λ e, has_class "view" e && is_visible e) d.

(** [v] is a view identifier of the page: it is not empty, and the element
    it names is a view. *)
Definition view_with_id (d : list element) (v : string) : bool :=
  match element_by_id v d with
  | Some i => from_option (has_class "view") false (d !! i)
  | None => false
  end.

(** A sequence of [showView] calls, one listener after the other. *)
Definition navigate (views : list string) (w : world) : world :=
  foldl (λ w v, (showView v w).2) w views.

(** [Session.userId] and [Session.userEmail]: the two items of the storage. *)
Definition userId (w : world) : option string :=
  sessionStorage w !! "currentUserId".

Definition userEmail (w : world) : option string :=
  sessionStorage w !! "currentUserEmail".

Definition both_set (w : world) : Prop := is_Some (userId w) ∧ is_Some (userEmail w).

Definition both_absent (w : world) : Prop := userId w = None ∧ userEmail w = None.

Definition session_consistent (w : world) : Prop := both_set w ∨ both_absent w.

(** What a listener added to the log. *)
Definition logged (w w' : world) : list effect :=
  drop (length (log w)) (log w').

Definition requests (l : list effect) : list request :=
  omap (λ e, match e with Fetch r => Some r | _ => None end) l.

Definition alerts (l : list effect) : list string :=
  omap (λ e, match e with Alert m => Some m | _ => None end) l.

(** [s] contains [t] as a substring. *)
Definition contains (s t : string) : Prop :=
  ∃ before after, s = before +:+ t +:+ after.


Arguments element_by_id : simpl never.
Arguments visible_views : simpl never.
Arguments view_with_id : simpl never.
Arguments String_includes : simpl never.
Arguments displayScanResult : simpl never.
Arguments Array_includes : simpl never.

(** The storage after a login wrote both items. *)
Definition logged_in (id email : string) (s : gmap string string) : gmap string string :=
  <["currentUserEmail" := email]> (<["currentUserId" := id]> s).

Definition signed_out (s : gmap string string) : gmap string string :=
  delete "currentUserEmail" (delete "currentUserId" s).

(** How one listener may change the session: not at all, both items
    written, or both items removed. *)
Definition session_step (s s' : gmap string string) : Prop :=
  s' = s ∨ (∃ id email, s' = logged_in id email s) ∨ s' = signed_out s.

Definition is_null (j : json) : bool :=
  match j with JNull => true | _ => false end.

Definition is_empty (s : string) : bool :=
  match s with EmptyString => true | _ => false end.

(** The scan results [displayScanResult] can render: [overall_summary] has
    an [includes] method and [details] can be dereferenced. *)
Definition renderable (data : json) : bool :=
  match field data "overall_summary" with
  | Some (JStr _) | Some (JArr _) =>
      match field data "details" with
      | None | Some JNull => false
      | Some _ => true
      end
  | _ => false
  end.

(** The page has no element to write the welcome message to. *)
Definition no_welcome (d : list element) : bool :=
  match element_by_id "welcome-message" d with
  | Some _ => false
  | None => true
  end.

(** A login that is left half done: the gateway accepted it, [String]
    converts the [id] of its body, which is stored, and throws on its
    [email]. *)
Definition half_login `{Builtins} (p : pending) (r : reply) : bool :=
  match p, r with
  | LoginSent, Response status (Some j) =>
      status_ok status && negb (is_null j) &&
      match ToString (field j "id"), ToString (field j "email") with
      | Some _, None => true
      | _, _ => false
      end
  | _, _ => false
  end.

(** The event, met by the controller [c], leaves no login half done. *)
Definition whole_login `{Builtins} (e : event) (c : controller) : Prop :=
  match e with
  | Settled i r _ =>
      match inflight c !! i with
      | Some p => half_login p r = false
      | None => True
      end
  | _ => True
  end.

(** No event of the sequence, run from [c], leaves a login half done. *)
Fixpoint whole_logins `{Builtins} (events : list event) (c : controller) : Prop :=
  match events with
  | [] => True
  | e :: events' => whole_login e c ∧ whole_logins events' (dispatch e c)
  end.

(** A computation that reads nothing of the world and leaves it as it
    was: in every world it returns the same value, or in every world it
    throws a [TypeError]. *)
Definition reads {A} (m : M A) : Prop :=
  (∃ a, ∀ w, m w = (Return a, w)) ∨ (∀ w, m w = (Throw TypeError, w)).

(** A computation that only adds to the log, and adds effects of one kind
    only, whether it returns or throws. *)
Definition appends {A} (P : effect → Prop) (m : M A) : Prop :=
  ∀ w, ∃ l, log (m w).2 = (log w ++ l)%list ∧ Forall P l.

(** The computation ends in an exception. *)
Definition throws {A} (m : M A) (w : world) : Prop :=
  ∃ e w', m w = (Throw e, w').

(** The reply carries no JSON: there is no response, or its body is no
    JSON text. *)
Definition no_json (r : reply) : bool :=
  match r with
  | NoResponse | Response _ None => true
  | Response _ (Some _) => false
  end.

(** The text of an application-level rejection: the [detail] of the body
    if it is truthy, or else the fallback of the handler. *)
Definition rejection_text `{Builtins} (fallback : string) (j : json) : option string :=
  ToString (or_else (field j "detail") (Some (JStr fallback))).

(** The [innerHTML] last assigned to an element, if any. *)
Definition innerHTML (d : list element) (r : ref) : option string :=
  match el_content <$> d !! r with
  | Some (InnerHTML html) => Some html
  | _ => None
  end.

(** A listener changed neither the session nor the page and raised these
    alerts. *)
Definition only_alerts (w w' : world) (messages : list string) : Prop :=
  sessionStorage w' = sessionStorage w ∧ document w' = document w ∧
  alerts (logged w w') = messages.

(** The three status classes, by what the summary was found to include. *)
Definition status_class (danger warning : bool) : string :=
  if danger then "text-danger"
  else if warning then "text-warning"
  else "text-success".

(** ** Frames *)

(** A change of an element that leaves its id and its classes alone. *)
Definition keeps_identity (f : element → element) : Prop :=
  ∀ e, el_id (f e) = el_id e ∧ el_class (f e) = el_class e.

(** A computation that leaves an observation of the world as it was,
    whether it returns or throws. *)
Definition keeps {A X} (obs : world → X) (m : M A) : Prop :=
  ∀ w, obs (m w).2 = obs w.

(** ** A page to run the script on *)

Definition view (id : string) : element :=
  Element "section" id "" ["view"] false "" "none" (TextContent "").

Definition input (id value : string) : element :=
  Element "input" id "" [] false value "" (TextContent "").

Definition block (tag id : string) : element :=
  Element tag id "" [] false "" "" (TextContent "").

(** The elements the script looks up by id, in one possible page. *)
Definition sample_page : list element :=
  [ view "home-view"; view "registration-view"; view "login-view";
    view "dashboard-view"; block "h2" "welcome-message";
    input "login-email" "a@b.com"; input "url-input" "http://x";
    block "div" "url-scan-result" ].

Definition on_load (storage : gmap string string) : world :=
  World storage sample_page [].

(** ** The built-ins of the runtime, for the examples

    ECMAScript's [parseInt] (without a radix), [StringToNumber] and
    [Number::toString] (radix 10, with the digits nearest to the number
    where the standard leaves the last digit open), on strings in UTF-8. *)

Module Ecma.

Definition char_code (c : Ascii.ascii) : Z := Z.of_N (Ascii.N_of_ascii c).

(** White space and line terminators, by the bytes of their encoding: the
    six of ASCII, U+00A0, and then U+1680, U+2000 to U+200A, U+2028,
    U+2029, U+202F, U+205F, U+3000 and U+FEFF. *)
Definition white_space1 (c : Ascii.ascii) : bool :=
  let n := char_code c in
  (9 <=? n) && (n <=? 13) || (n =? 32).

Definition white_space2 (c1 c2 : Ascii.ascii) : bool :=
  (char_code c1 =? 194) && (char_code c2 =? 160).

Definition white_space3 (c1 c2 c3 : Ascii.ascii) : bool :=
  let '(n1, n2, n3) := (char_code c1, char_code c2, char_code c3) in
  (n1 =? 225) && (n2 =? 154) && (n3 =? 128) ||
  (n1 =? 226) && (n2 =? 128) &&
    ((128 <=? n3) && (n3 <=? 138) || (n3 =? 168) || (n3 =? 169) || (n3 =? 175)) ||
  (n1 =? 226) && (n2 =? 129) && (n3 =? 159) ||
  (n1 =? 227) && (n2 =? 128) && (n3 =? 128) ||
  (n1 =? 239) && (n2 =? 187) && (n3 =? 191).

Fixpoint skip_white_space (s : string) : string :=
  match s with
  | String c1 s1 =>
      if white_space1 c1 then skip_white_space s1
      else
        match s1 with
        | String c2 s2 =>
            if white_space2 c1 c2 then skip_white_space s2
            else
              match s2 with
              | String c3 s3 => if white_space3 c1 c2 c3 then skip_white_space s3 else s
              | EmptyString => s
              end
        | EmptyString => s
        end
  | EmptyString => s
  end.

(** [s] up to where only white space follows. *)
Fixpoint trim_end (s : string) : string :=
  match s with
  | String c s' =>
      if String.eqb (skip_white_space s) "" then "" else String c (trim_end s')
  | EmptyString => s
  end.

Definition trim (s : string) : string := trim_end (skip_white_space s).

(** The value of a digit in a radix up to 36. *)
Definition digit_of (radix : Z) (c : Ascii.ascii) : option Z :=
  let n := char_code c in
  let d := if (48 <=? n) && (n <=? 57) then n - 48
           else if (97 <=? n) && (n <=? 122) then n - 87
           else if (65 <=? n) && (n <=? 90) then n - 55
           else 36 in
  if d <? radix then Some d else None.

(** The longest prefix of digits: its value on top of [acc], its length on
    top of [n], and the rest of the string. *)
Fixpoint digits (radix : Z) (s : string) (acc n : Z) : Z * Z * string :=
  match s with
  | String c s' =>
      match digit_of radix c with
      | Some d => digits radix s' (radix * acc + d) (n + 1)
      | None => (acc, n, s)
      end
  | EmptyString => (acc, n, s)
  end.

Definition sign_of (s : string) : bool * string :=
  match s with
  | String c s' =>
      if char_code c =? 45 then (true, s')
      else if char_code c =? 43 then (false, s')
      else (false, s)
  | EmptyString => (false, s)
  end.

(** [0x], [0o] or [0b] in either case: the radix and what follows. *)
Definition radix_prefix (s : string) : option (Z * string) :=
  match s with
  | String c (String r s') =>
      if char_code c =? 48 then
        let n := Z.lor (char_code r) 32 in
        if n =? 120 then Some (16, s')
        else if n =? 111 then Some (8, s')
        else if n =? 98 then Some (2, s')
        else None
      else None
  | _ => None
  end.

(** The double nearest to [m * 2^e], ties to even. *)
Definition round (m e : Z) (negative_zero : bool) : float :=
  SF2Prim (binary_normalize prec emax m e negative_zero).

(** The double nearest to [m * 10^k], for [0 <= m < 10^count]. *)
Definition round_decimal (negative : bool) (m count k : Z) : float :=
  let sign z := if negative then - z else z in
  if m =? 0 then round 0 0 negative
  else if 310 <? k then (if negative then neg_infinity else infinity)
  else if count + k <? -330 then round 0 0 negative
  else if 0 <=? k then round (sign (m * 10 ^ k)) 0 negative
  else
    let d := 10 ^ (- k) in
    let s := Z.max 0 (56 + Z.log2 d - Z.log2 m) in
    let q := (m * 2 ^ s) / d in
    let sticky := if (m * 2 ^ s) mod d =? 0 then 0 else 1 in
    round (sign (2 * q + sticky)) (- (s + 1)) negative.

Definition parseInt (s : string) : float :=
  let '(negative, s) := sign_of (skip_white_space s) in
  let '(radix, s) :=
    match radix_prefix s with
    | Some (16, s') => (16, s')
    | _ => (10, s)
    end in
  let '(value, count, _) := digits radix s 0 0 in
  if count =? 0 then nan
  else round (if negative then - value else value) 0 negative.

(** An unsigned decimal literal: digits, a fraction, an exponent. *)
Definition StrUnsignedDecimalLiteral (negative : bool) (s : string) : float :=
  if String.eqb s "Infinity" then (if negative then neg_infinity else infinity)
  else
    let '(m, ni, s) := digits 10 s 0 0 in
    let '(m, n, s) :=
      match s with
      | String c s' => if char_code c =? 46 then digits 10 s' m ni else (m, ni, s)
      | EmptyString => (m, ni, s)
      end in
    let nf := n - ni in
    if n =? 0 then nan
    else
      match s with
      | EmptyString => round_decimal negative m n (- nf)
      | String c s' =>
          if Z.lor (char_code c) 32 =? 101 then
            let '(minus, s') := sign_of s' in
            let '(e, ne, rest) := digits 10 s' 0 0 in
            if (ne =? 0) || negb (String.eqb rest "") then nan
            else round_decimal negative m n ((if minus then - e else e) - nf)
          else nan
      end.

Definition StringToNumber (s : string) : float :=
  let s := trim s in
  if String.eqb s "" then zero
  else
    match radix_prefix s with
    | Some (radix, s') =>
        let '(value, count, rest) := digits radix s' 0 0 in
        if (count =? 0) || negb (String.eqb rest "") then nan else round value 0 false
    | None =>
        let '(negative, s') := sign_of s in
        StrUnsignedDecimalLiteral negative s'
    end.

Definition decimal (z : Z) : string := NilZero.string_of_int (Z.to_int z).

Fixpoint zeros (n : nat) : string :=
  match n with
  | O => ""
  | S n' => "0" +:+ zeros n'
  end.

(** Whether [m * 2^e >= 10^n]. *)
Definition at_least_pow10 (m e n : Z) : bool :=
  let num := m * 2 ^ Z.max 0 e * 10 ^ Z.max 0 (- n) in
  let den := 2 ^ Z.max 0 (- e) * 10 ^ Z.max 0 n in
  den <=? num.

(** The [n] with [10^(n-1) <= m * 2^e < 10^n]. *)
Definition magnitude (m e : Z) : Z :=
  let estimate := ((Z.log2 m + e) * 1233) / 4096 in
  if at_least_pow10 m e (estimate + 1) then estimate + 2
  else if at_least_pow10 m e estimate then estimate + 1
  else estimate.

(** The digits [s] of length [k] for [x = m * 2^e] of magnitude [n], if
    [s * 10^(n-k)] reads back as [x]: of the two [s] that enclose
    [x / 10^(n-k)], the nearer one first, the even one when they are as
    near. *)
Definition digits_of_length (x : float) (m e n k : Z) : option (Z * Z) :=
  let p := n - k in
  let num := m * 2 ^ Z.max 0 e * 10 ^ Z.max 0 (- p) in
  let den := 2 ^ Z.max 0 (- e) * 10 ^ Z.max 0 p in
  let lo := num / den in
  let r := num mod den in
  let reads_back s := PrimFloat.eqb (round_decimal false s (k + 1) p) x in
  let lower_first := (2 * r <? den) || ((2 * r =? den) && Z.even lo) in
  let pick s := if s =? 10 ^ k then (10 ^ (k - 1), n + 1) else (s, n) in
  let first := if lower_first then lo else lo + 1 in
  let second := if lower_first then lo + 1 else lo in
  if reads_back first then Some (pick first)
  else if reads_back second then Some (pick second)
  else None.

(** The fewest digits that read back as [x]; seventeen always do. *)
Fixpoint shortest (x : float) (m e n k : Z) (fuel : nat) : Z * Z * Z :=
  match fuel with
  | O => (0, 1, n)
  | S fuel' =>
      match digits_of_length x m e n k with
      | Some (s, n') => (s, k, n')
      | None => shortest x m e n (k + 1) fuel'
      end
  end.

(** [s] without the zeros at its end, and [k] less their number. *)
Fixpoint strip_zeros (s k : Z) (fuel : nat) : Z * Z :=
  match fuel with
  | O => (s, k)
  | S fuel' =>
      if (1 <? k) && (s mod 10 =? 0) then strip_zeros (s / 10) (k - 1) fuel' else (s, k)
  end.

Definition substring_from (i : nat) (s : string) : string :=
  String.substring i (String.length s - i) s.

Definition Number_toString_positive (x : float) (m e : Z) : string :=
  let n := magnitude m e in
  let '(s, k, n) := shortest x m e n 1 17 in
  let '(s, k) := strip_zeros s k 17 in
  let ds := decimal s in
  if (k <=? n) && (n <=? 21) then ds +:+ zeros (Z.to_nat (n - k))
  else if (0 <? n) && (n <=? 21) then
    String.substring 0 (Z.to_nat n) ds +:+ "." +:+ substring_from (Z.to_nat n) ds
  else if (-6 <? n) && (n <=? 0) then "0." +:+ zeros (Z.to_nat (- n)) +:+ ds
  else
    let exponent := (if n - 1 <? 0 then "-" else "+") +:+ decimal (Z.abs (n - 1)) in
    if k =? 1 then ds +:+ "e" +:+ exponent
    else String.substring 0 1 ds +:+ "." +:+ substring_from 1 ds +:+ "e" +:+ exponent.

Definition Number_toString (x : float) : string :=
  match Prim2SF x with
  | S754_nan => "NaN"
  | S754_zero _ => "0"
  | S754_infinity negative => if negative then "-Infinity" else "Infinity"
  | S754_finite negative m e =>
      (if negative then "-" else "") +:+ Number_toString_positive (abs x) (Zpos m) e
  end.

End Ecma.

Definition ecma : Builtins :=
  {| Number_toString := Ecma.Number_toString;
     StringToNumber := Ecma.StringToNumber;
     parseInt := Ecma.parseInt |}.

(** ** The rest of the [DOMContentLoaded] listener *)

(** The [change] listener of a scope radio.  [value] is [e.target.value];
    the two element objects are what the load listener got from
    [getElementById] for the two groups of fields, [null] included. *)
Definition onScopeChange (individualFields enterpriseFields : option ref)
    (value : string) : M unit :=
  if String.eqb value "individual" then
    (deref individualFields ≫= λ i, update_element i (with_display "block")) ;;
    (deref enterpriseFields ≫= λ e, update_element e (with_display "none"))
  else
    (deref individualFields ≫= λ i, update_element i (with_display "none")) ;;
    (deref enterpriseFields ≫= λ e, update_element e (with_display "block")).

(** The functions the load listener registers. *)
Inductive handler : Type :=
  | ShowView (viewId : string)          (* [() => showView(viewId)] *)
  | HandleSignOut
  | GoToDashboard
  | HandleRegistration
  | HandleLogin
  | HandleUrlScan
  | ScopeChange (individualFields enterpriseFields : option ref).

Record listener : Type := Listener {
  lis_target : ref;
  lis_type : string;
  lis_handler : handler
}.

(** The page while it loads: the world and the listeners registered so
    far, in the order of registration. *)
Record loading : Type := Loading {
  loading_page : world;
  listeners : list listener
}.

Definition L (A : Type) : Type := loading → result A * loading.

#[export] Instance L_ret : MRet L := λ A a s, (Return a, s).

#[export] Instance L_bind : MBind L := λ A B f m s,
  match m s with
  | (Return a, s') => f a s'
  | (Throw e, s') => (Throw e, s')
  end.

(** A computation on the world, run while the page loads. *)
Definition lift {A} (m : M A) : L A := λ s,
  let '(r, w) := m (loading_page s) in (r, Loading w (listeners s)).

Definition addEventListener (target : ref) (type : string) (h : handler) : L unit := λ s,
  (Return tt, Loading (loading_page s) (listeners s ++ [Listener target type h])).

(** [document.getElementById(id).addEventListener(type, h)] *)
Definition listen_by_id (id type : string) (h : handler) : L unit :=
  target ← lift (getElementById id ≫= deref) ;
  addEventListener target type h.

Fixpoint find_all {A} (p : A → bool) (l : list A) : list nat :=
  match l with
  | [] => []
  | x :: l' => ((if p x then [0%nat] else []) ++ (S <$> find_all p l'))%list
  end.

(** [document.querySelectorAll('input[name="..."]')] *)
Definition querySelectorAll_inputs (name : string) : M (list ref) := λ w,
  (Return (find_all (λ e, String.eqb (el_tag e) "input" && String.eqb (el_name e) name)
             (document w)), w).

Fixpoint forEach {A} (l : list A) (f : A → L unit) : L unit :=
  match l with
  | [] => mret tt
  | x :: l' => f x ;; forEach l' f
  end.

Definition read_checked (r : ref) : M bool := λ w,
  (Return (default false (el_checked <$> document w !! r)), w).

(** The whole [DOMContentLoaded] listener: the first view, the seven
    listeners of navigation and forms, the scope radios. *)
Definition DOMContentLoaded_listener : L unit :=
  lift onDOMContentLoaded ;;
  listen_by_id "nav-sign-up" "click" (ShowView "registration-view") ;;
  listen_by_id "nav-sign-in" "click" (ShowView "login-view") ;;
  listen_by_id "nav-sign-out" "click" HandleSignOut ;;
  listen_by_id "nav-dashboard" "click" GoToDashboard ;;
  listen_by_id "registration-form" "submit" HandleRegistration ;;
  listen_by_id "login-form" "submit" HandleLogin ;;
  listen_by_id "url-scan-form" "submit" HandleUrlScan ;;
  scopeRadios ← lift (querySelectorAll_inputs "scope") ;
  individualFields ← lift (getElementById "individual-fields") ;
  enterpriseFields ← lift (getElementById "enterprise-fields") ;
  forEach scopeRadios (λ radio,
    addEventListener radio "change" (ScopeChange individualFields enterpriseFields)) ;;
  scopeIndividual ← lift (getElementById "scope-individual" ≫= deref) ;
  checked ← lift (read_checked scopeIndividual) ;
  if (checked : bool) then
    lift (deref individualFields ≫= λ i, update_element i (with_display "block")) ;;
    lift (deref enterpriseFields ≫= λ e, update_element e (with_display "none"))
  else mret tt.

(** The listeners of navigation and forms, as the load listener registers
    them: the id of the target, the event, the handler. *)
Definition wiring : list (string * string * handler) :=
  [ ("nav-sign-up", "click", ShowView "registration-view");
    ("nav-sign-in", "click", ShowView "login-view");
    ("nav-sign-out", "click", HandleSignOut);
    ("nav-dashboard", "click", GoToDashboard);
    ("registration-form", "submit", HandleRegistration);
    ("login-form", "submit", HandleLogin);
    ("url-scan-form", "submit", HandleUrlScan) ].

(** The listeners the table asks for, on a page that has every target. *)
Fixpoint wire_all (d : list element) (table : list (string * string * handler)) :
    option (list listener) :=
  match table with
  | [] => Some []
  | (id, type, h) :: table' =>
      match element_by_id id d with
      | Some target => cons (Listener target type h) <$> wire_all d table'
      | None => None
      end
  end.

(** The listeners of the table up to the first target the page lacks. *)
Fixpoint wire_prefix (d : list element) (table : list (string * string * handler)) :
    list listener :=
  match table with
  | [] => []
  | (id, type, h) :: table' =>
      match element_by_id id d with
      | Some target => Listener target type h :: wire_prefix d table'
      | None => []
      end
  end.

(** One [change] listener for each scope radio of the page. *)
Definition scope_listeners (d : list element) : list listener :=
  (λ radio,
     Listener radio "change"
       (ScopeChange (element_by_id "individual-fields" d)
                    (element_by_id "enterprise-fields" d)))
  <$> find_all (λ e, String.eqb (el_tag e) "input" && String.eqb (el_name e) "scope") d.

(** The [style.display] of the elements. *)
Definition displays (w : world) : list string := el_display <$> document w.

(** ** More observations *)

(** What the script never changes in an element. *)
Definition static (e : element) : string * string * string * list string * bool :=
  (el_tag e, el_id e, el_name e, el_class e, el_checked e).

(** The page as far as the script never changes it. *)
Definition statics (w : world) : list (string * string * string * list string * bool) :=
  static <$> document w.

(** The requests and the alerts of the whole log. *)
Definition sent (w : world) : list request := requests (log w).

Definition alerted (w : world) : list string := alerts (log w).

(** What [showView] leaves alone in an element: all but its [style.display]
    and its content. *)
Definition shape (e : element) : string * string * string * list string * bool * string :=
  (static e, el_value e).

Definition shapes (w : world) : list (string * string * string * list string * bool * string) :=
  shape <$> document w.

Definition contents (w : world) : list content := el_content <$> document w.

(** The views that are visible. *)
Definition visible (w : world) : list string := visible_views (document w).

(** The value a control of the form holds, if the form has the control. *)
Definition form_value (id : string) (form : list element) : option string :=
  el_value <$> querySelector_id id form.

(** The scope of the registration: the value of the checked radio. *)
Definition form_scope (form : list element) : option string :=
  el_value <$> querySelector_checked "scope" form.

(** The controls [handleRegistration] reads, by scope. *)
Definition scope_fields (scope : string) : list (string * string) :=
  if String.eqb scope "individual" then
    [("first_name", "reg-first-name"); ("last_name", "reg-last-name");
     ("mobile", "reg-mobile")]
  else if String.eqb scope "enterprise" then
    [("company_name", "reg-company-name"); ("company_website", "reg-company-website");
     ("phone", "reg-phone")]
  else [].

(** The form has all the controls its scope asks for. *)
Definition registration_ready (form : list element) : bool :=
  match form_scope form with
  | Some scope =>
      forallb (λ id, bool_decide (is_Some (form_value id form)))
        ("reg-email" :: (snd <$> scope_fields scope))
  | None => false
  end.

(** The object sent to [/register] for a form that is ready. *)
Definition registration_body (form : list element) : json :=
  let scope := default "" (form_scope form) in
  let member_of '(key, id) := (key, JStr (default "" (form_value id form))) in
  JObj (("scope", JStr scope) :: (member_of <$> (("email", "reg-email") :: scope_fields scope))).

(** The gateway accepted the request: it answered 2xx. *)
Definition accepted (r : reply) : bool :=
  match r with
  | Response status _ => status_ok status
  | NoResponse => false
  end.

(** [detailsHtml], as [displayScanResult] puts it together from the two
    sections of the details. *)
Definition detailsHtml_of `{Builtins} (details : json) : M string :=
  detailsHtml ← (if ToBoolean (field details "virustotal")
                 then virustotal_html (field details "virustotal") else mret "") ;
  if ToBoolean (field details "google_safe_browsing")
  then html ← google_safe_browsing_html (field details "google_safe_browsing") ;
       mret (detailsHtml +:+ html)
  else mret detailsHtml.

(** The effect is a message on the console. *)
Definition is_console_error (e : effect) : bool :=
  match e with ConsoleError _ _ => true | _ => false end.

(** A computation under which a property of the world, once true, stays
    true, whether it returns or throws. *)
Definition preserves {A} (P : world → Prop) (m : M A) : Prop :=
  ∀ w, P w → P (m w).2.

Definition at_most_one_view (w : world) : Prop :=
  (length (visible_views (document w)) ≤ 1)%nat.

(** A page with the elements of navigation, the forms and the registration
    fields, to run the load listener on. *)
Definition radio (id value : string) (checked : bool) : element :=
  Element "input" id "scope" [] checked value "" (TextContent "").

Definition full_page : list element :=
  sample_page ++
  [ block "a" "nav-sign-up"; block "a" "nav-sign-in"; block "a" "nav-sign-out";
    block "a" "nav-dashboard"; block "form" "registration-form";
    block "form" "login-form"; block "form" "url-scan-form";
    radio "scope-individual" "individual" true;
    radio "scope-enterprise" "enterprise" false;
    block "div" "individual-fields"; block "div" "enterprise-fields" ].

(** The descendants of the registration form, filled in by an individual. *)
Definition individual_form : list element :=
  [ radio "scope-individual" "individual" true;
    radio "scope-enterprise" "enterprise" false;
    input "reg-email" "a@b.com"; input "reg-first-name" "Ada";
    input "reg-last-name" "Lovelace"; input "reg-mobile" "555" ].

(** * Properties *)

(** ** Lists of elements *)

Section find_index.
Context {A : Type} (p : A → bool).

Lemma find_index_Some (l : list A) (i : nat) :
  find_index p l = Some i → ∃ x, l !! i = Some x ∧ p x = true.
Proof.
  revert i. induction l as [|x l IH]; intros i; simpl; [done|].
  destruct (p x) eqn:Hp.
  - intros [= <-]. eauto.
  - destruct (find_index p l) as [j|]; simpl; [|done].
    intros [= <-]. destruct (IH j eq_refl) as (y & ? & ?). eauto.
Qed.

Lemma find_index_fmap (f : A → A) (l : list A) :
  (∀ x, p (f x) = p x) → find_index p (f <$> l) = find_index p l.
Proof.
  intros Hf. induction l as [|x l IH]; [done|].
  rewrite fmap_cons. cbn [find_index]. by rewrite Hf, IH.
Qed.

Lemma find_index_alter (f : A → A) (i : nat) (l : list A) :
  (∀ x, p (f x) = p x) → find_index p (alter f i l) = find_index p l.
Proof.
  intros Hf. revert i. induction l as [|x l IH]; intros [|i]; try done.
  - cbn. by rewrite Hf.
  - change (alter f (S i) (x :: l)) with (x :: alter f i l).
    cbn [find_index]. by rewrite IH.
Qed.
End find_index.

Lemma keeps_identity_display d : keeps_identity (with_display d).
Proof. by intros []. Qed.

Lemma keeps_identity_content c : keeps_identity (with_content c).
Proof. by intros []. Qed.

Lemma keeps_identity_value v : keeps_identity (with_value v).
Proof. by intros []. Qed.

Lemma keeps_identity_hide : keeps_identity hide_view.
Proof. intros e. unfold hide_view. destruct (has_class "view" e); by destruct e. Qed.

Create HintDb identity discriminated.
#[export] Hint Resolve keeps_identity_display keeps_identity_content
  keeps_identity_value keeps_identity_hide : identity.

Lemma has_class_keeps f c e : keeps_identity f → has_class c (f e) = has_class c e.
Proof. intros Hf. unfold has_class. by rewrite (proj2 (Hf e)). Qed.

Lemma element_by_id_Some id d i :
  element_by_id id d = Some i → id ≠ "" ∧ ∃ e, d !! i = Some e ∧ el_id e = id.
Proof.
  unfold element_by_id. destruct (String.eqb_spec id ""); [done|].
  intros (e & He & Hid%String.eqb_eq)%find_index_Some. eauto.
Qed.

(** An id that is not empty is looked up among the ids of the elements. *)
Lemma element_by_id_find id d :
  id ≠ "" → element_by_id id d = find_index (λ e, String.eqb (el_id e) id) d.
Proof. unfold element_by_id. by destruct (String.eqb_spec id ""). Qed.

Lemma element_by_id_empty d : element_by_id "" d = None.
Proof. done. Qed.

Lemma element_by_id_fmap f d id :
  keeps_identity f → element_by_id id (f <$> d) = element_by_id id d.
Proof.
  intros Hf. unfold element_by_id. destruct (String.eqb id ""); [done|].
  apply find_index_fmap. intros e. by rewrite (proj1 (Hf e)).
Qed.

Lemma element_by_id_alter f j d id :
  keeps_identity f → element_by_id id (alter f j d) = element_by_id id d.
Proof.
  intros Hf. unfold element_by_id. destruct (String.eqb id ""); [done|].
  apply find_index_alter. intros e. by rewrite (proj1 (Hf e)).
Qed.

Lemma view_with_id_fmap f d v :
  keeps_identity f → view_with_id (f <$> d) v = view_with_id d v.
Proof.
  intros Hf. unfold view_with_id. rewrite element_by_id_fmap by done.
  destruct (element_by_id v d) as [i|]; [|done].
  rewrite list_lookup_fmap. destruct (d !! i) as [e|]; simpl; [|done].
  by apply has_class_keeps.
Qed.

Lemma view_with_id_alter f j d v :
  keeps_identity f → view_with_id (alter f j d) v = view_with_id d v.
Proof.
  intros Hf. unfold view_with_id. rewrite element_by_id_alter by done.
  destruct (element_by_id v d) as [i|]; [|done].
  destruct (decide (i = j)) as [->|Hne].
  - rewrite list_lookup_alter_eq. destruct (d !! j) as [e|]; simpl; [|done].
    by apply has_class_keeps.
  - by rewrite list_lookup_alter_ne.
Qed.

Lemma visible_views_cons e d :
  visible_views (e :: d) =
    ((if has_class "view" e && is_visible e then [el_id e] else []) ++ visible_views d)%list.
Proof. unfold visible_views. simpl. by destruct (_ && _). Qed.

Lemma alter_cons_S {A} (f : A → A) (i : nat) (x : A) (l : list A) :
  alter f (S i) (x :: l) = x :: alter f i l.
Proof. done. Qed.

Lemma alter_cons_0 {A} (f : A → A) (x : A) (l : list A) :
  alter f 0%nat (x :: l) = f x :: l.
Proof. done. Qed.

Lemma visible_views_hide d : visible_views (hide_view <$> d) = [].
Proof.
  induction d as [|e d IH]; [done|].
  rewrite fmap_cons, visible_views_cons, IH.
  unfold hide_view. destruct (has_class "view" e) eqn:Hc.
  - unfold is_visible. by rewrite andb_false_r.
  - by rewrite Hc.
Qed.

Lemma visible_views_nil_show i d :
  visible_views d = [] →
  visible_views (alter (with_display "block") i d) =
    match d !! i with
    | Some e => if has_class "view" e then [el_id e] else []
    | None => []
    end.
Proof.
  revert i. induction d as [|e d IH]; intros i Hd; [done|].
  rewrite visible_views_cons in Hd. apply app_eq_nil in Hd as [He Hd].
  destruct i as [|i].
  - rewrite alter_cons_0, visible_views_cons, Hd. simpl.
    rewrite (has_class_keeps _ _ _ (keeps_identity_display "block")).
    destruct (has_class "view" e); by destruct e.
  - rewrite alter_cons_S, visible_views_cons, He. simpl. by apply IH.
Qed.

(** Visibility of the views only depends on ids, classes and display. *)
Lemma visible_views_alter f j d :
  keeps_identity f → (∀ e, el_display (f e) = el_display e) →
  visible_views (alter f j d) = visible_views d.
Proof.
  intros Hf Hd. revert j. induction d as [|e d IH]; intros [|j]; try done.
  - rewrite alter_cons_0, !visible_views_cons.
    unfold is_visible. by rewrite has_class_keeps, Hd, (proj1 (Hf e)).
  - by rewrite alter_cons_S, !visible_views_cons, IH.
Qed.

Lemma visible_views_content c j d :
  visible_views (alter (with_content c) j d) = visible_views d.
Proof. apply visible_views_alter; [auto with identity | by intros []]. Qed.

(** ** Frame rules *)

Ltac unfold_script :=
  unfold when, hide_views, getElementById, update_element, read_value, getItem,
    setItem, store, removeItem, post, alert, console_error, fetch, emit, deref, throw,
    try_catch, mbind, M_bind, mret, M_ret in *.

Section keeps.
Context {X : Type} (obs : world → X).

Lemma keeps_ret {A} (a : A) : keeps obs (mret a).
Proof. by intros w. Qed.

Lemma keeps_throw {A} (e : exn) : keeps obs (throw e : M A).
Proof. by intros w. Qed.

Lemma keeps_bind {A B} (m : M A) (f : A → M B) :
  keeps obs m → (∀ a, keeps obs (f a)) → keeps obs (m ≫= f).
Proof.
  intros Hm Hf w. unfold mbind, M_bind. specialize (Hm w).
  destruct (m w) as [[a|e] w']; simpl in *; [|done].
  by rewrite Hf.
Qed.

Lemma keeps_try_catch {A} (m : M A) (h : exn → M A) :
  keeps obs m → (∀ e, keeps obs (h e)) → keeps obs (try_catch m h).
Proof.
  intros Hm Hh w. unfold try_catch. specialize (Hm w).
  destruct (m w) as [[a|e] w']; simpl in *; [done|].
  by rewrite Hh.
Qed.

Lemma keeps_when (b : bool) (m : M unit) : keeps obs m → keeps obs (when b m).
Proof. destruct b; [done | by intros _ w]. Qed.

Lemma keeps_getItem k : keeps obs (getItem k).
Proof. by intros w. Qed.

Lemma keeps_getElementById id : keeps obs (getElementById id).
Proof. by intros w. Qed.

Lemma keeps_deref {A} (r : option A) : keeps obs (deref r).
Proof. by intros w; destruct r. Qed.

Lemma keeps_read_value r : keeps obs (read_value r).
Proof. by intros w. Qed.

Lemma keeps_prop v k : keeps obs (prop v k).
Proof. by intros w; destruct v as [[]|]. Qed.

Lemma keeps_includes x t : keeps obs (includes x t).
Proof. by intros w; destruct x as [[]|]. Qed.

Lemma keeps_to_string `{Builtins} v : keeps obs (to_string v).
Proof. intros w. unfold to_string. by destruct (ToString v). Qed.

Lemma keeps_setItem `{Builtins} key v :
  (∀ s, keeps obs (store key s)) → keeps obs (setItem key v).
Proof. intros Hs. apply keeps_bind; [apply keeps_to_string | done]. Qed.

Lemma keeps_gt_zero `{Builtins} v : keeps obs (gt_zero v).
Proof.
  destruct v as [[]|]; try done; simpl; apply keeps_bind; auto using keeps_to_string; done.
Qed.

Lemma keeps_await_fetch r : keeps obs (await_fetch r).
Proof. by intros w; destruct r. Qed.

Lemma keeps_response_json r : keeps obs (response_json r).
Proof. by intros w; unfold response_json; destruct (res_body r). Qed.
End keeps.

Create HintDb frame discriminated.
#[export] Hint Resolve keeps_ret keeps_throw keeps_getItem keeps_getElementById
  keeps_deref keeps_read_value keeps_prop keeps_includes keeps_await_fetch
  keeps_response_json keeps_to_string keeps_gt_zero keeps_setItem : frame.

(** Decompose a frame goal along the structure of the computation. *)
Ltac frame :=
  repeat first
    [ apply keeps_bind
    | apply keeps_try_catch
    | apply keeps_when
    | solve [auto with frame]
    | progress intros
    | match goal with
      | |- keeps _ (match ?x with _ => _ end) => destruct x
      | |- keeps _ (let _ := _ in _) => cbv zeta
      end ].

Lemma storage_update_element r f : keeps sessionStorage (update_element r f).
Proof. by intros w. Qed.

Lemma storage_hide_views : keeps sessionStorage hide_views.
Proof. by intros w. Qed.

Lemma storage_emit e : keeps sessionStorage (emit e).
Proof. by intros w. Qed.

#[export] Hint Resolve storage_update_element storage_hide_views storage_emit : frame.

Lemma storage_alert m : keeps sessionStorage (alert m).
Proof. apply storage_emit. Qed.

Lemma storage_console_error m e : keeps sessionStorage (console_error m e).
Proof. apply storage_emit. Qed.

Lemma storage_post path body : keeps sessionStorage (post path body).
Proof. apply storage_emit. Qed.

#[export] Hint Resolve storage_alert storage_console_error storage_post : frame.

Lemma storage_showView v : keeps sessionStorage (showView v).
Proof. unfold showView. frame. Qed.

#[export] Hint Resolve storage_showView : frame.

Lemma storage_goToDashboard : keeps sessionStorage goToDashboard.
Proof. unfold goToDashboard. frame. Qed.

#[export] Hint Resolve storage_goToDashboard : frame.

Lemma storage_onDOMContentLoaded : keeps sessionStorage onDOMContentLoaded.
Proof. unfold onDOMContentLoaded. frame. Qed.

(** ** showView *)

Lemma view_with_id_hide_lookup d v i :
  element_by_id v (hide_view <$> d) = Some i →
  match (hide_view <$> d) !! i with
  | Some e => if has_class "view" e then [el_id e] else []
  | None => []
  end = if view_with_id d v then [v] else [].
Proof.
  intros Hi. unfold view_with_id.
  rewrite element_by_id_fmap in Hi by auto with identity.
  rewrite Hi. destruct (element_by_id_Some _ _ _ Hi) as (_ & e & He & Hid).
  rewrite list_lookup_fmap, He. simpl.
  by rewrite (has_class_keeps _ _ _ keeps_identity_hide), (proj1 (keeps_identity_hide e)), Hid.
Qed.

Lemma view_with_id_hide_None d v :
  element_by_id v (hide_view <$> d) = None →
  view_with_id d v = false.
Proof.
  intros Hi. unfold view_with_id.
  rewrite element_by_id_fmap in Hi by auto with identity.
  by rewrite Hi.
Qed.

(** After [showView viewId], whether or not the welcome message could be
    written: the views that are visible, and the view identifiers of the
    page. *)
Lemma showView_effect viewId w :
  let w' := (showView viewId w).2 in
  log w' = log w ∧
  visible_views (document w') = (if view_with_id (document w) viewId then [viewId] else []) ∧
  (∀ v, view_with_id (document w') v = view_with_id (document w) v).
Proof.
  unfold showView. unfold_script. cbn.
  destruct (element_by_id viewId (hide_view <$> document w)) as [i|] eqn:Hi; cbn;
    destruct (String.eqb viewId "dashboard-view"); cbn;
    try destruct (item_truthy _); cbn;
    try destruct (element_by_id "welcome-message" _) as [j|]; cbn.
  all: repeat split; try done; intros;
    rewrite ?visible_views_content, ?visible_views_nil_show, ?visible_views_hide,
      ?view_with_id_alter, ?view_with_id_fmap by auto using visible_views_hide with identity;
    auto using view_with_id_hide_lookup, visible_views_hide.
  all: by rewrite (view_with_id_hide_None _ _ Hi).
Qed.

Lemma showView_visible viewId w :
  view_with_id (document w) viewId = true →
  visible_views (document (showView viewId w).2) = [viewId].
Proof.
  intros Hv. destruct (showView_effect viewId w) as (_ & Hvis & _).
  by rewrite Hvis, Hv.
Qed.

Lemma navigate_view_with_id views w v :
  view_with_id (document (navigate views w)) v = view_with_id (document w) v.
Proof.
  revert w. induction views as [|u views IH]; intros w; [done|].
  simpl. rewrite IH. apply showView_effect.
Qed.

(** C6. After any sequence of [showView] calls that ends with [showView v],
    for a view identifier [v] of the page (the id, not empty, of an element
    of class [view]), exactly one view element is visible and it is the one
    named [v]. *)
Theorem navigate_shows_last (views : list string) (v : string) (w : world) :
  view_with_id (document w) v = true →
  visible_views (document (navigate (views ++ [v]) w)) = [v].
Proof.
  intros Hv. unfold navigate. rewrite foldl_app. simpl.
  apply showView_visible. fold (navigate views w).
  by rewrite navigate_view_with_id.
Qed.

Lemma navigate_shows_last_witness :
  view_with_id (document (on_load ∅)) "login-view" = true ∧
  visible_views
    (document (navigate (["dashboard-view"; "nav-sign-up"; "home-view"] ++ ["login-view"])
                 (on_load ∅))) = ["login-view"].
Proof. split; [reflexivity | by apply navigate_shows_last]. Defined.

(** ** goToDashboard *)

Lemma goToDashboard_effect w :
  let w' := (goToDashboard w).2 in
  let target := if item_truthy (userId w) then "dashboard-view" else "login-view" in
  sessionStorage w' = sessionStorage w ∧ log w' = log w ∧
  visible_views (document w') = (if view_with_id (document w) target then [target] else []) ∧
  (∀ v, view_with_id (document w') v = view_with_id (document w) v).
Proof.
  split; [apply storage_goToDashboard|].
  unfold goToDashboard, userId. unfold_script. cbn.
  destruct (item_truthy _); apply showView_effect.
Qed.

(** C2. On a page with a dashboard view and a login view, [goToDashboard]
    shows the dashboard if and only if [currentUserId] is present, which
    the script tests by the truthiness of the stored item; when it is
    absent (no item, or the empty string) the login view is shown. *)
Theorem goToDashboard_shows (w : world) :
  view_with_id (document w) "dashboard-view" = true →
  view_with_id (document w) "login-view" = true →
  let shown := visible_views (document (goToDashboard w).2) in
  (shown = ["dashboard-view"] ↔ item_truthy (userId w) = true) ∧
  (item_truthy (userId w) = false → shown = ["login-view"]).
Proof.
  intros Hd Hl. destruct (goToDashboard_effect w) as (_ & _ & Hvis & _).
  cbn zeta in *. rewrite Hvis. clear Hvis.
  destruct (item_truthy (userId w)); rewrite ?Hd, ?Hl; by repeat split.
Qed.

Lemma goToDashboard_shows_witness :
  let w := on_load {[ "currentUserId" := "7" ]} in
  let shown := visible_views (document (goToDashboard w).2) in
  (shown = ["dashboard-view"] ↔ item_truthy (userId w) = true) ∧
  (item_truthy (userId w) = false → shown = ["login-view"]).
Proof. apply goToDashboard_shows; reflexivity. Defined.

(** ** handleSignOut *)

(** C8. [handleSignOut] returns with both session items removed, one alert
    raised before it returns and, on a page with a home view, that view as
    the one visible view. *)
Theorem handleSignOut_effect (w : world) :
  view_with_id (document w) "home-view" = true →
  let '(r, w') := handleSignOut w in
  r = Return tt ∧
  userId w' = None ∧ userEmail w' = None ∧
  logged w w' = [Alert "You have been signed out."] ∧
  visible_views (document w') = ["home-view"].
Proof.
  intros Hv. unfold handleSignOut, userId, userEmail, logged.
  unfold removeItem, alert, emit, mbind, M_bind. cbn.
  set (w1 := World _ _ _).
  pose proof (showView_effect "home-view" w1) as (Hlog & Hvis & _).
  pose proof (storage_showView "home-view" w1) as Hsto.
  assert (∃ w', showView "home-view" w1 = (Return tt, w')) as [w' Hrun].
  { unfold showView. unfold_script. cbn. destruct (element_by_id _ _); cbn; eauto. }
  rewrite Hrun in *. simpl in *. rewrite Hsto, Hlog, Hvis. subst w1. simpl.
  rewrite Hv, drop_app_length.
  repeat split; [| by rewrite lookup_delete_eq].
  rewrite lookup_delete_ne by done. by rewrite lookup_delete_eq.
Qed.

Lemma handleSignOut_effect_witness :
  let w := on_load {[ "currentUserId" := "7"; "currentUserEmail" := "a@b.com" ]} in
  view_with_id (document w) "home-view" = true ∧
  let '(r, w') := handleSignOut w in
  r = Return tt ∧
  userId w' = None ∧ userEmail w' = None ∧
  logged w w' = [Alert "You have been signed out."] ∧
  visible_views (document w') = ["home-view"].
Proof. split; [reflexivity | by apply handleSignOut_effect]. Defined.

(** ** handleLogin *)

Lemma showView_result v w :
  (showView v w).1 =
    if String.eqb v "dashboard-view" && item_truthy (userEmail w) && no_welcome (document w)
    then Throw TypeError else Return tt.
Proof.
  unfold showView, no_welcome, userEmail. unfold_script. cbn.
  destruct (element_by_id v (hide_view <$> document w)) as [i|]; cbn;
    destruct (String.eqb v "dashboard-view"); cbn; try done;
    destruct (item_truthy _); cbn; try done;
    rewrite ?element_by_id_alter, ?element_by_id_fmap by auto with identity;
    by destruct (element_by_id _ (document w)).
Qed.

Lemma mret_run {A} (a : A) (w : world) : (mret a : M A) w = (Return a, w).
Proof. done. Qed.

Lemma prop_Some j k w :
  is_null j = false → prop (Some j) k w = (Return (field j k), w).
Proof. by destruct j. Qed.

Lemma prop_null k w : prop (Some JNull) k w = (Throw TypeError, w).
Proof. done. Qed.

Lemma to_string_Some `{Builtins} v s w :
  ToString v = Some s → to_string v w = (Return s, w).
Proof. unfold to_string. by intros ->. Qed.

Lemma to_string_None `{Builtins} v w :
  ToString v = None → to_string v w = (Throw TypeError, w).
Proof. unfold to_string. by intros ->. Qed.

Lemma bind_run {A B} (m : M A) (f : A → M B) w :
  (m ≫= f) w = match m w with
               | (Return a, w') => f a w'
               | (Throw e, w') => (Throw e, w')
               end.
Proof. done. Qed.

Lemma alert_run message w :
  alert message w =
    (Return tt, World (sessionStorage w) (document w) (log w ++ [Alert message])).
Proof. done. Qed.

Lemma console_error_run message error w :
  console_error message error w =
    (Return tt,
     World (sessionStorage w) (document w) (log w ++ [ConsoleError message error])).
Proof. done. Qed.

Lemma store_run key s w :
  store key s w =
    (Return tt, World (<[key := s]> (sessionStorage w)) (document w) (log w)).
Proof. done. Qed.

Lemma throw_run {A} e w : (throw e : M A) w = (Throw e, w).
Proof. done. Qed.

Lemma await_fetch_run status body w :
  await_fetch (Response status body) w =
    (Return {| res_status := status; res_body := body |}, w).
Proof. done. Qed.

Lemma response_json_run status j w :
  response_json {| res_status := status; res_body := Some j |} w = (Return j, w).
Proof. done. Qed.

Lemma response_ok_run status body :
  response_ok {| res_status := status; res_body := body |} = status_ok status.
Proof. done. Qed.

(** Run the computation at the head of the goal one step at a time. *)
Ltac exec :=
  repeat first
    [ rewrite bind_run
    | rewrite await_fetch_run
    | rewrite response_json_run
    | rewrite response_ok_run
    | rewrite mret_run
    | rewrite throw_run
    | rewrite prop_Some by done
    | rewrite alert_run
    | rewrite console_error_run
    | rewrite store_run
    | progress cbv beta iota ].

Lemma logged_app s d w l : logged w (World s d (log w ++ l)) = l.
Proof. unfold logged. simpl. apply drop_app_length. Qed.

Lemma item_truthy_Some s : item_truthy (Some s) = negb (is_empty s).
Proof. by destruct s. Qed.

Section login.
Context `{Builtins}.

Lemma handleLogin_settled_no_response w :
  handleLogin_settled NoResponse w =
    (Return tt, World (sessionStorage w) (document w)
       (log w ++ [ConsoleError "Network error during login:" FetchFailed;
                  Alert connect_error_login])).
Proof.
  unfold handleLogin_settled, handleLogin_try. unfold_script. cbn.
  by rewrite <- app_assoc.
Qed.

Lemma handleLogin_settled_not_json status w :
  handleLogin_settled (Response status None) w =
    (Return tt, World (sessionStorage w) (document w)
       (log w ++ [ConsoleError "Network error during login:" SyntaxError;
                  Alert connect_error_login])).
Proof.
  unfold handleLogin_settled, handleLogin_try. unfold_script. cbn.
  by rewrite <- app_assoc.
Qed.

(** The body is [null]: the first property read throws. *)
Lemma handleLogin_settled_null status w :
  handleLogin_settled (Response status (Some JNull)) w =
    (Return tt, World (sessionStorage w) (document w)
       (log w ++ (if status_ok status then [Alert "Login successful!"] else []) ++
          [ConsoleError "Network error during login:" TypeError;
           Alert connect_error_login])).
Proof.
  unfold handleLogin_settled, handleLogin_try, response_ok. unfold_script. cbn.
  destruct (status_ok status); cbn; by rewrite <- !app_assoc.
Qed.

Lemma handleLogin_settled_rejected status j w :
  status_ok status = false → is_null j = false →
  handleLogin_settled (Response status (Some j)) w =
    (Return tt,
     World (sessionStorage w) (document w)
       (log w ++
        match rejection_text "Invalid email or user not found." j with
        | Some text => [Alert ("Login failed: " +:+ text)]
        | None => [ConsoleError "Network error during login:" TypeError;
                   Alert connect_error_login]
        end)).
Proof.
  intros Hok Hj. unfold handleLogin_settled, handleLogin_try, rejection_text.
  unfold try_catch. exec. rewrite Hok. exec.
  unfold to_string. destruct (ToString _) as [text|]; exec; [done|].
  simpl. by rewrite <- app_assoc.
Qed.

(** What a 2xx reply with a body other than [null] does, by what [String]
    makes of [id] and [email]. *)
Lemma handleLogin_settled_accepted status j w :
  status_ok status = true → is_null j = false →
  handleLogin_settled (Response status (Some j)) w =
    let caught e s l :=
      (Return tt, World s (document w)
         (l ++ [ConsoleError "Network error during login:" e; Alert connect_error_login])) in
    let l1 := (log w ++ [Alert "Login successful!"])%list in
    match ToString (field j "id"), ToString (field j "email") with
    | Some id, Some email =>
        let w1 := World (logged_in id email (sessionStorage w)) (document w) l1 in
        match goToDashboard w1 with
        | (Return _, w2) => (Return tt, w2)
        | (Throw e, w2) =>
            (Return tt, World (sessionStorage w2) (document w2)
               (log w2 ++ [ConsoleError "Network error during login:" e;
                           Alert connect_error_login]))
        end
    | Some id, None =>
        caught TypeError (<["currentUserId" := id]> (sessionStorage w)) l1
    | None, _ => caught TypeError (sessionStorage w) l1
    end.
Proof.
  intros Hok Hj. unfold handleLogin_settled, handleLogin_try.
  unfold try_catch. exec. rewrite Hok. exec.
  unfold setItem, to_string. exec.
  destruct (ToString (field j "id")) as [id|]; exec;
    [|simpl; by rewrite <- app_assoc].
  destruct (ToString (field j "email")) as [email|]; exec;
    [|simpl; by rewrite <- app_assoc].
  simpl. unfold logged_in.
  destruct (goToDashboard _) as [[[]|e] w2]; exec; [done|]. simpl. by rewrite <- app_assoc.
Qed.

(** What a 2xx reply with a body other than [null], an [id] and an [email]
    that [String] converts does to the session and to the views. *)
Lemma handleLogin_settled_accepted_effect status j id email w :
  view_with_id (document w) "dashboard-view" = true →
  view_with_id (document w) "login-view" = true →
  status_ok status = true → is_null j = false →
  ToString (field j "id") = Some id → ToString (field j "email") = Some email →
  let w' := (handleLogin_settled (Response status (Some j)) w).2 in
  sessionStorage w' = logged_in id email (sessionStorage w) ∧
  visible_views (document w') = [if is_empty id then "login-view" else "dashboard-view"] ∧
  (∀ v, view_with_id (document w') v = view_with_id (document w) v).
Proof.
  intros Hd Hl Hok Hj Hid Hemail. rewrite handleLogin_settled_accepted by done.
  rewrite Hid, Hemail. cbn zeta.
  set (w1 := World _ _ _).
  destruct (goToDashboard_effect w1) as (Hsto & _ & Hvis & Hview). cbn zeta in *.
  assert (item_truthy (userId w1) = negb (is_empty id)) as Htruthy.
  { unfold userId, w1, logged_in. simpl.
    rewrite lookup_insert_ne by done. rewrite lookup_insert_eq.
    apply item_truthy_Some. }
  rewrite Htruthy in Hvis.
  destruct (goToDashboard w1) as [[[]|e] w2]; simpl in *;
    (split; [done|]); (split; [|done]);
    rewrite Hvis; destruct (is_empty _); simpl; by rewrite ?Hd, ?Hl.
Qed.

(** C1, as the code has it.  When the reply to [POST /login] carries a JSON
    body other than [null]: on 2xx, if [String] converts the [id] and the
    [email] of the body, both session items are written from them and
    [goToDashboard] runs, which shows the dashboard when the stored id is
    not empty and the login view when it is; on non-2xx, if [String]
    converts the detail, the session and the page are untouched and one
    alert gives the detail of the gateway or, when that is falsy, the
    generic text.  When the body is not JSON, whatever the status, the
    session and the page are untouched and the one alert is the
    connectivity message. *)
Theorem handleLogin_settled_effect (w : world) (status : Z) (body : option json) :
  view_with_id (document w) "dashboard-view" = true →
  view_with_id (document w) "login-view" = true →
  let w' := (handleLogin_settled (Response status body) w).2 in
  match body with
  | Some j =>
      is_null j = false →
      if status_ok status then
        ∀ id email,
          ToString (field j "id") = Some id → ToString (field j "email") = Some email →
          userId w' = Some id ∧ userEmail w' = Some email ∧
          visible_views (document w') =
            [if is_empty id then "login-view" else "dashboard-view"]
      else
        ∀ text,
          rejection_text "Invalid email or user not found." j = Some text →
          only_alerts w w' ["Login failed: " +:+ text] ∧
          (ToBoolean (field j "detail") = false →
           text = "Invalid email or user not found.")
  | None => only_alerts w w' [connect_error_login]
  end.
Proof.
  intros Hd Hl. cbn zeta. destruct body as [j|].
  - intros Hj. destruct (status_ok status) eqn:Hok.
    + intros id email Hid Hemail.
      destruct (handleLogin_settled_accepted_effect status j id email w)
        as (Hsto & Hvis & _); try done.
      cbn zeta in *. unfold userId, userEmail. rewrite Hsto. unfold logged_in.
      split; [|split; [|done]].
      * rewrite lookup_insert_ne by done. by rewrite lookup_insert_eq.
      * by rewrite lookup_insert_eq.
    + intros text Htext. rewrite handleLogin_settled_rejected by done.
      rewrite Htext. unfold only_alerts. simpl. rewrite logged_app.
      repeat split. intros Hfalsy. unfold rejection_text, or_else in Htext.
      rewrite Hfalsy in Htext. by injection Htext.
  - rewrite handleLogin_settled_not_json. unfold only_alerts. simpl.
    by rewrite logged_app.
Qed.

(** C9, as the code has it.  After a 2xx reply with a body other than
    [null] whose [id] and [email] [String] converts, the stored
    [currentUserId] is [String(result.id)]; the session counts as
    authenticated, and [goToDashboard] shows the dashboard, exactly when
    that string is not empty.  A body without [id] stores the string
    ["undefined"], which is not empty. *)
Theorem login_authenticates (w : world) (status : Z) (j : json) (id email : string) :
  view_with_id (document w) "dashboard-view" = true →
  view_with_id (document w) "login-view" = true →
  status_ok status = true → is_null j = false →
  ToString (field j "id") = Some id → ToString (field j "email") = Some email →
  let w' := (handleLogin_settled (Response status (Some j)) w).2 in
  userId w' = Some id ∧
  (item_truthy (userId w') = true ↔ id ≠ "") ∧
  (visible_views (document w') = ["dashboard-view"] ↔ id ≠ "") ∧
  (visible_views (document (goToDashboard w').2) = ["dashboard-view"] ↔ id ≠ "") ∧
  (field j "id" = None →
     userId w' = Some "undefined" ∧ item_truthy (userId w') = true ∧
     visible_views (document w') = ["dashboard-view"]).
Proof.
  intros Hd Hl Hok Hj Hid Hemail.
  destruct (handleLogin_settled_accepted_effect status j id email w)
    as (Hsto & Hvis & Hview); try done.
  cbn zeta in *. set (w' := (handleLogin_settled _ w).2) in *.
  assert (userId w' = Some id) as Hstored.
  { unfold userId. rewrite Hsto. unfold logged_in.
    rewrite lookup_insert_ne by done. by rewrite lookup_insert_eq. }
  destruct (goToDashboard_effect w') as (_ & _ & Hvis' & _). cbn zeta in Hvis'.
  rewrite Hstored, item_truthy_Some, !Hview in Hvis'.
  rewrite Hvis, Hvis', Hstored. clear Hvis Hvis'.
  split; [done|]. split; [|split; [|split]].
  - destruct id; simpl; split; (done || congruence).
  - destruct id; simpl; split; (done || congruence).
  - destruct id; simpl; rewrite ?Hd, ?Hl; split; (done || congruence).
  - intros Hnone. rewrite Hnone in Hid. injection Hid as <-. done.
Qed.

End login.

Lemma handleLogin_settled_effect_witness :
  let w := on_load ∅ in
  let w' := (@handleLogin_settled ecma
               (Response 200 (Some (JObj [("id", JNum 7); ("email", JStr "a@b.com")]))) w).2 in
  userId w' = Some "7" ∧ userEmail w' = Some "a@b.com" ∧
  visible_views (document w') = ["dashboard-view"].
Proof.
  exact (@handleLogin_settled_effect ecma (on_load ∅) 200
           (Some (JObj [("id", JNum 7); ("email", JStr "a@b.com")])) eq_refl eq_refl
           eq_refl "7" "a@b.com" eq_refl eq_refl).
Defined.

(** C1, as stated, fails for a 2xx reply whose body is not JSON (a 204
    without content, say): no item is written and no view is shown. *)
Lemma handleLogin_settled_2xx_not_json :
  let w := on_load ∅ in
  let w' := (@handleLogin_settled ecma (Response 204 None) w).2 in
  status_ok 204 = true ∧
  ¬ (both_set w' ∧ visible_views (document w') = ["dashboard-view"]).
Proof. split; [done|]. by intros [[[? [=]] _] _]. Qed.

Lemma login_authenticates_witness :
  let w := on_load ∅ in
  let w' := (@handleLogin_settled ecma (Response 200 (Some (JObj []))) w).2 in
  userId w' = Some "undefined" ∧ item_truthy (userId w') = true ∧
  visible_views (document w') = ["dashboard-view"].
Proof.
  exact (proj2 (proj2 (proj2 (proj2
    (@login_authenticates ecma (on_load ∅) 200 (JObj []) "undefined" "undefined"
       eq_refl eq_refl eq_refl eq_refl eq_refl eq_refl))))
    eq_refl).
Defined.

(** C9, as stated, fails for a 2xx reply whose [id] is the empty string:
    the stored value is falsy and the login view is shown. *)
Lemma login_with_empty_id :
  let w := on_load ∅ in
  let w' := (@handleLogin_settled ecma
               (Response 200 (Some (JObj [("id", JStr ""); ("email", JStr "a@b.com")]))) w).2 in
  status_ok 200 = true ∧
  ¬ (item_truthy (userId w') = true ∧
     visible_views (document (goToDashboard w').2) = ["dashboard-view"]).
Proof. split; [done|]. by intros [? _]. Qed.

(** ** The session across all listeners *)

Lemma storage_handleRegistration form : keeps sessionStorage (handleRegistration form).
Proof. unfold handleRegistration, field_value. frame. Qed.

Lemma storage_handleRegistration_settled `{Builtins} r :
  keeps sessionStorage (handleRegistration_settled r).
Proof. unfold handleRegistration_settled, handleRegistration_try. frame. Qed.

Lemma storage_handleLogin : keeps sessionStorage handleLogin.
Proof. unfold handleLogin. frame. Qed.

Lemma storage_displayScanResult `{Builtins} data target clock :
  keeps sessionStorage (displayScanResult data target clock).
Proof.
  unfold displayScanResult, statusClass_of, virustotal_html, google_safe_browsing_html.
  frame.
Qed.

#[export] Hint Resolve storage_displayScanResult : frame.

Lemma storage_handleUrlScan `{Builtins} : keeps sessionStorage handleUrlScan.
Proof. unfold handleUrlScan. frame. Qed.

Lemma storage_handleUrlScan_settled `{Builtins} urlInput resultDiv r clock :
  keeps sessionStorage (handleUrlScan_settled urlInput resultDiv r clock).
Proof. unfold handleUrlScan_settled, handleUrlScan_try. frame. Qed.

Lemma session_handleSignOut w :
  sessionStorage (handleSignOut w).2 = signed_out (sessionStorage w).
Proof.
  unfold handleSignOut, removeItem, alert, emit, mbind, M_bind. cbn.
  by rewrite storage_showView.
Qed.

(** A login that is not left half done writes both items or none. *)
Lemma session_handleLogin_settled `{Builtins} r w :
  half_login LoginSent r = false →
  session_step (sessionStorage w) (sessionStorage (handleLogin_settled r w).2).
Proof.
  destruct r as [|status [j|]]; cbn [half_login].
  - rewrite handleLogin_settled_no_response. by left.
  - destruct (is_null j) eqn:Hj.
    { destruct j; try done. rewrite handleLogin_settled_null. by left. }
    destruct (status_ok status) eqn:Hok; cbn [andb negb].
    + rewrite handleLogin_settled_accepted by done. cbn zeta.
      destruct (ToString (field j "id")) as [id|]; [|by left].
      destruct (ToString (field j "email")) as [email|]; [|done]. intros _.
      set (w1 := World _ _ _). pose proof (storage_goToDashboard w1) as Hsto.
      right; left. exists id, email.
      by destruct (goToDashboard w1) as [[[]|e] w2].
    + rewrite handleLogin_settled_rejected by done. by left.
  - rewrite handleLogin_settled_not_json. by left.
Qed.

(** Whatever a login stored, a sign-out removes. *)
Lemma signed_out_handleLogin_settled `{Builtins} r w :
  signed_out (sessionStorage (handleLogin_settled r w).2) = signed_out (sessionStorage w).
Proof.
  assert (∀ id (s : gmap string string),
            signed_out (<["currentUserId" := id]> s) = signed_out s) as Hid.
  { intros id s. unfold signed_out. by rewrite delete_insert_eq. }
  assert (∀ id email (s : gmap string string),
            signed_out (logged_in id email s) = signed_out s) as Hboth.
  { intros id email s. unfold signed_out, logged_in.
    rewrite (delete_insert_ne (<["currentUserId" := _]> s)) by done.
    rewrite delete_insert_eq. by rewrite delete_insert_eq. }
  destruct r as [|status [j|]].
  - by rewrite handleLogin_settled_no_response.
  - destruct (is_null j) eqn:Hj.
    { destruct j; try done. by rewrite handleLogin_settled_null. }
    destruct (status_ok status) eqn:Hok.
    + rewrite handleLogin_settled_accepted by done. cbn zeta.
      destruct (ToString (field j "id")) as [id|]; [|done].
      destruct (ToString (field j "email")) as [email|]; [|apply Hid].
      set (w1 := World _ _ _). pose proof (storage_goToDashboard w1) as Hsto.
      destruct (goToDashboard w1) as [[[]|e] w2]; simpl in *; rewrite Hsto; apply Hboth.
    + by rewrite handleLogin_settled_rejected.
  - by rewrite handleLogin_settled_not_json.
Qed.

Lemma session_step_consistent w w' :
  session_step (sessionStorage w) (sessionStorage w') →
  session_consistent w → session_consistent w'.
Proof.
  unfold session_consistent, both_set, both_absent, userId, userEmail.
  intros [->|[(id & email & ->)| ->]] Hw; [done| |].
  - left. unfold logged_in. rewrite lookup_insert_ne by done.
    rewrite !lookup_insert_eq. eauto.
  - right. unfold signed_out. rewrite lookup_delete_ne by done.
    by rewrite !lookup_delete_eq.
Qed.

Lemma session_dispatch `{Builtins} e c :
  whole_login e c →
  session_step (sessionStorage (page c)) (sessionStorage (page (dispatch e c))).
Proof.
  destruct e; simpl; unfold listen, submit; simpl.
  - left. apply storage_showView.
  - left. apply storage_showView.
  - right; right. apply session_handleSignOut.
  - left. apply storage_goToDashboard.
  - left. pose proof (storage_handleRegistration form (page c)).
    by destruct (handleRegistration form (page c)) as [[[]|] ?].
  - left. pose proof (storage_handleLogin (page c)).
    by destruct (handleLogin (page c)) as [[[]|] ?].
  - left. pose proof (storage_handleUrlScan (page c)).
    by destruct (handleUrlScan (page c)) as [[[]|] ?].
  - destruct (inflight c !! i) as [[]|]; simpl.
    + left. apply storage_handleRegistration_settled.
    + apply session_handleLogin_settled.
    + left. apply storage_handleUrlScan_settled.
    + by left.
Qed.



(** ** handleUrlScan *)

(** C4. When the page has its URL input and either no truthy
    [currentUserId] is stored or the input is empty, [handleUrlScan] returns
    without a request in flight; the session and the page are unchanged and
    the only effect is one alert. *)
Theorem handleUrlScan_precondition {B : Builtins} (w : world) (urlInput : ref) :
  find_index (λ e, String.eqb (el_id e) "url-input") (document w) = Some urlInput →
  let url := default "" (el_value <$> document w !! urlInput) in
  item_truthy (userId w) = false ∨ url = "" →
  let '(r, w') := handleUrlScan w in
  r = Return None ∧
  sessionStorage w' = sessionStorage w ∧ document w' = document w ∧
  logged w w' =
    [Alert (if item_truthy (userId w) then "Please enter a URL to scan."
            else "You must be logged in to perform a scan.")] ∧
  requests (logged w w') = [] ∧
  inflight (submit handleUrlScan (Controller w [])) = [].
Proof.
  intros Hinput url Hpre. unfold submit, handleUrlScan, userId in *.
  unfold_script. cbn. rewrite (element_by_id_find "url-input") by done.
  rewrite Hinput. cbn. fold url.
  destruct (item_truthy _); cbn.
  - destruct Hpre as [? | ->]; [done|]. cbn. by rewrite logged_app.
  - by rewrite logged_app.
Qed.

Lemma handleUrlScan_precondition_witness :
  let w := on_load ∅ in
  let '(r, w') := @handleUrlScan ecma w in
  r = Return None ∧
  sessionStorage w' = sessionStorage w ∧ document w' = document w ∧
  logged w w' = [Alert "You must be logged in to perform a scan."] ∧
  requests (logged w w') = [] ∧
  inflight (submit (@handleUrlScan ecma) (Controller w [])) = [].
Proof.
  exact (@handleUrlScan_precondition ecma (on_load ∅) 6%nat eq_refl
           (or_introl eq_refl)).
Defined.

(** ** displayScanResult *)

Lemma append_String c s t : String c s +:+ t = String c (s +:+ t).
Proof. done. Qed.

Lemma prefix_spec t s : String.prefix t s = true ↔ ∃ after, s = t +:+ after.
Proof.
  revert t. induction s as [|c' s IH]; intros [|c t]; simpl.
  - split; [intros _; by exists "" | done].
  - split; [done | by intros [? ?]].
  - split; [intros _; by exists (String c' s) | done].
  - destruct (Ascii.ascii_dec c c') as [<-|Hne].
    + rewrite IH. split; intros [after Ha]; exists after;
        rewrite append_String in *; congruence.
    + split; [done|]. intros [after Ha]. rewrite append_String in Ha. congruence.
Qed.

Lemma String_includes_nil t : String_includes "" t = String.prefix t "".
Proof. unfold String_includes. by rewrite orb_false_r. Qed.

Lemma String_includes_cons c s t :
  String_includes (String c s) t = String.prefix t (String c s) || String_includes s t.
Proof. done. Qed.

Lemma String_includes_spec s t : String_includes s t = true ↔ contains s t.
Proof.
  unfold contains. induction s as [|c s IH].
  - rewrite String_includes_nil, prefix_spec. split.
    + intros [after Ha]. by exists "", after.
    + intros ([|? ?] & after & Ha); [eauto | done].
  - rewrite String_includes_cons, orb_true_iff, prefix_spec, IH. split.
    + intros [[after Ha]|(before & after & Ha)].
      * by exists "", after.
      * exists (String c before), after. by rewrite append_String, Ha.
    + intros ([|c' before] & after & Ha).
      * left. eauto.
      * right. exists before, after. rewrite append_String in Ha. congruence.
Qed.

Lemma statusClass_of_run data w :
  statusClass_of data w =
    match field data "overall_summary" with
    | Some (JStr s) =>
        (Return (status_class (String_includes s "DANGER") (String_includes s "WARNING")), w)
    | Some (JArr items) =>
        (Return (status_class (Array_includes items "DANGER")
                   (Array_includes items "WARNING")), w)
    | _ => (Throw TypeError, w)
    end.
Proof.
  unfold statusClass_of, status_class. unfold_script.
  destruct data; cbn; try done.
  destruct (member _ _) as [[]|]; cbn; try done.
  - destruct (String_includes _ "DANGER"); [done|].
    by destruct (String_includes _ "WARNING").
  - destruct (Array_includes _ "DANGER"); [done|].
    by destruct (Array_includes _ "WARNING").
Qed.

(** *** Computations that only read *)

Lemma reads_ret {A} (a : A) : reads (mret a).
Proof. left. by exists a. Qed.

Lemma reads_throw {A} : reads (throw TypeError : M A).
Proof. by right. Qed.

Lemma reads_bind {A B} (m : M A) (f : A → M B) :
  reads m → (∀ a, reads (f a)) → reads (m ≫= f).
Proof.
  intros [[a Hm]|Hm] Hf.
  - destruct (Hf a) as [[b Hb]|Hb]; [left; exists b | right];
      intros w; by rewrite bind_run, Hm, Hb.
  - right. intros w. by rewrite bind_run, Hm.
Qed.

Lemma reads_prop v k : reads (prop v k).
Proof. destruct v as [[]|]; first [apply reads_throw | apply reads_ret]. Qed.

Lemma reads_includes x t : reads (includes x t).
Proof. destruct x as [[]|]; first [apply reads_throw | apply reads_ret]. Qed.

Lemma reads_to_string `{Builtins} v : reads (to_string v).
Proof. unfold to_string. destruct (ToString v); [apply reads_ret | apply reads_throw]. Qed.

Lemma reads_gt_zero `{Builtins} v : reads (gt_zero v).
Proof.
  destruct v as [[]|]; simpl; try apply reads_ret;
    (apply reads_bind; [apply reads_to_string | intros; apply reads_ret]).
Qed.

Create HintDb reads discriminated.
#[export] Hint Resolve reads_ret reads_throw reads_prop reads_includes reads_to_string
  reads_gt_zero : reads.

Ltac reading :=
  repeat first
    [ apply reads_bind
    | solve [auto with reads]
    | progress intros
    | match goal with
      | |- reads (match ?x with _ => _ end) => destruct x
      | |- reads (let _ := _ in _) => cbv zeta
      end ].

Lemma reads_virustotal_html `{Builtins} vt : reads (virustotal_html vt).
Proof. unfold virustotal_html. reading. Qed.

Lemma reads_google_safe_browsing_html `{Builtins} gsb : reads (google_safe_browsing_html gsb).
Proof. unfold google_safe_browsing_html. reading. Qed.

Lemma renderable_not_null data : renderable data = true → is_null data = false.
Proof. by destruct data. Qed.

Lemma displayScanResult_not_renderable `{Builtins} data target clock w :
  renderable data = false →
  displayScanResult data target clock w = (Throw TypeError, w).
Proof.
  intros Hr. unfold displayScanResult. rewrite bind_run, statusClass_of_run.
  unfold renderable in Hr.
  destruct (is_null data) eqn:Hnull; [by destruct data|].
  destruct (field data "overall_summary") as [[]|]; try done.
  all: exec.
  all: destruct (field data "details") as [[]|]; done.
Qed.

Lemma statusClass_of_pure data :
  renderable data = true → ∃ class, ∀ w, statusClass_of data w = (Return class, w).
Proof.
  intros Hr. unfold renderable in Hr.
  destruct (field data "overall_summary") as [[]|] eqn:Hs; try done;
    eexists; intros w; rewrite statusClass_of_run, Hs; reflexivity.
Qed.

(** The two sections of the details, put together. *)
Lemma reads_detailsHtml_of `{Builtins} details : reads (detailsHtml_of details).
Proof.
  apply reads_bind.
  - destruct (ToBoolean _); auto using reads_virustotal_html with reads.
  - intros h1. destruct (ToBoolean _); [apply reads_bind|];
      auto using reads_google_safe_browsing_html with reads.
Qed.

(** [displayScanResult], once the status class and the details are there. *)
Lemma displayScanResult_run `{Builtins} data details class clock target w :
  (∀ w, statusClass_of data w = (Return class, w)) →
  field data "details" = Some details → is_null details = false →
  displayScanResult data target clock w =
    (detailsHtml_of details ≫= λ detailsHtml,
     url ← prop (Some data) "url" ≫= to_string ;
     overall_summary ← prop (Some data) "overall_summary" ≫= to_string ;
     update_element target
       (with_content (InnerHTML
          (scan_result_html class url overall_summary detailsHtml clock)))) w.
Proof.
  intros Hclass Hdet Hd.
  assert (is_null data = false) as Hnull by (by destruct data).
  unfold displayScanResult, detailsHtml_of. exec. rewrite Hclass. exec.
  rewrite Hdet. exec.
  destruct (ToBoolean (field details "virustotal"));
    [destruct (virustotal_html _ w) as [[h1|e] w1] | exec];
    exec; rewrite ?Hdet; exec; try done;
    destruct (ToBoolean (field details "google_safe_browsing")); exec; try done;
    destruct (google_safe_browsing_html _ _) as [[h2|e] w2]; by exec.
Qed.

Lemma renderable_details data :
  renderable data = true → ∃ details, field data "details" = Some details ∧ is_null details = false.
Proof.
  unfold renderable. destruct (field data "overall_summary") as [[]|]; try done;
    destruct (field data "details") as [[]|]; try done; eauto.
Qed.

(** [displayScanResult] either throws a [TypeError] before it has written
    anything, or it writes the template, filled in with the status class
    and with what [String] makes of [url] and [overall_summary], into its
    target; which of the two, and the text, depend on the result alone. *)
Lemma displayScanResult_cases `{Builtins} data clock :
  (∀ target w, displayScanResult data target clock w = (Throw TypeError, w)) ∨
  ∃ class url summary details detailsHtml,
    renderable data = true ∧
    (∀ w, statusClass_of data w = (Return class, w)) ∧
    ToString (field data "url") = Some url ∧
    ToString (field data "overall_summary") = Some summary ∧
    field data "details" = Some details ∧
    (∀ w, detailsHtml_of details w = (Return detailsHtml, w)) ∧
    ∀ target w,
      displayScanResult data target clock w =
        (Return tt,
         World (sessionStorage w)
           (alter (with_content (InnerHTML
              (scan_result_html class url summary detailsHtml clock))) target (document w))
           (log w)).
Proof.
  destruct (renderable data) eqn:Hr;
    [|left; intros; by apply displayScanResult_not_renderable].
  pose proof (renderable_not_null _ Hr) as Hnull.
  destruct (statusClass_of_pure data Hr) as [class Hclass].
  destruct (renderable_details data Hr) as (details & Hdet & Hd).
  pose proof (λ target w, displayScanResult_run data details class clock target w
                            Hclass Hdet Hd) as Hrun.
  destruct (reads_detailsHtml_of details) as [[detailsHtml Hdetails]|Hdetails];
    [|left; intros; by rewrite Hrun, bind_run, Hdetails].
  destruct (ToString (field data "url")) as [url|] eqn:Hurl;
    [|left; intros; rewrite Hrun, bind_run, Hdetails; exec;
      by rewrite (to_string_None _ _ Hurl)].
  destruct (ToString (field data "overall_summary")) as [summary|] eqn:Hsum;
    [|left; intros; rewrite Hrun, bind_run, Hdetails; exec;
      rewrite (to_string_Some _ _ _ Hurl); exec;
      by rewrite (to_string_None _ _ Hsum)].
  right. exists class, url, summary, details, detailsHtml. repeat split; try done.
  intros target w. rewrite Hrun, bind_run, Hdetails. exec.
  rewrite (to_string_Some _ _ _ Hurl). exec.
  by rewrite (to_string_Some _ _ _ Hsum).
Qed.

(** C5. For a scan result whose [overall_summary] is a string, the status
    class is fixed by that string alone: ["text-danger"] if it contains
    ["DANGER"], else ["text-warning"] if it contains ["WARNING"], else
    ["text-success"]; and that class is the one [displayScanResult] writes
    into the result element. *)
Theorem statusClass_from_summary {B : Builtins} (data : json) (s : string)
    (target : ref) (clock : string) (w : world) :
  field data "overall_summary" = Some (JStr s) →
  ∃ class,
    statusClass_of data w = (Return class, w) ∧
    (contains s "DANGER" → class = "text-danger") ∧
    (¬ contains s "DANGER" → contains s "WARNING" → class = "text-warning") ∧
    (¬ contains s "DANGER" → ¬ contains s "WARNING" → class = "text-success") ∧
    ∀ w', displayScanResult data target clock w = (Return tt, w') →
      ∃ url detailsHtml,
        ToString (field data "url") = Some url ∧
        document w' =
          alter (with_content (InnerHTML
                   (scan_result_html class url s detailsHtml clock))) target (document w).
Proof.
  intros Hs.
  exists (status_class (String_includes s "DANGER") (String_includes s "WARNING")).
  pose proof (statusClass_of_run data w) as Hclass. rewrite Hs in Hclass.
  split; [done|]. unfold status_class.
  split; [|split; [|split]].
  - intros Hd%String_includes_spec. by rewrite Hd.
  - intros Hd Hw%String_includes_spec.
    destruct (String_includes s "DANGER") eqn:Hd'; [|by rewrite Hw].
    by apply String_includes_spec in Hd'.
  - intros Hd Hw.
    destruct (String_includes s "DANGER") eqn:Hd';
      [by apply String_includes_spec in Hd'|].
    destruct (String_includes s "WARNING") eqn:Hw';
      [by apply String_includes_spec in Hw'|].
    done.
  - intros w' Hrun.
    destruct (displayScanResult_cases data clock)
      as [Hthrow|(class & url & summary & details & detailsHtml & _ & Hclass' & Hurl & Hsum
                  & _ & _ & Hrun')].
    + by rewrite Hthrow in Hrun.
    + rewrite Hclass' in Hclass. injection Hclass as ->.
      rewrite Hrun' in Hrun. injection Hrun as <-.
      rewrite Hs in Hsum. injection Hsum as <-.
      by exists url, detailsHtml.
Qed.

Lemma statusClass_from_summary_witness :
  let data := JObj [("url", JStr "http://x");
                    ("overall_summary", JStr "WARNING, then DANGER: malicious");
                    ("details", JObj [])] in
  ∃ class,
    statusClass_of data (on_load ∅) = (Return class, on_load ∅) ∧
    (contains "WARNING, then DANGER: malicious" "DANGER" → class = "text-danger").
Proof.
  destruct (@statusClass_from_summary ecma
              (JObj [("url", JStr "http://x");
                     ("overall_summary", JStr "WARNING, then DANGER: malicious");
                     ("details", JObj [])])
              "WARNING, then DANGER: malicious" 7%nat "12:00:00" (on_load ∅) eq_refl)
    as (class & Hrun & Hdanger & _).
  exists class. split; [exact Hrun | exact Hdanger].
Defined.

Lemma handleUrlScan_settled_accepted {B : Builtins} urlInput resultDiv status data clock w :
  status_ok status = true →
  handleUrlScan_settled urlInput resultDiv (Response status (Some data)) clock w =
    match displayScanResult data resultDiv clock w with
    | (Return _, w1) =>
        (Return tt, World (sessionStorage w1)
                      (alter (with_value "") urlInput (document w1)) (log w1))
    | (Throw e, w1) =>
        (Return tt, World (sessionStorage w1)
                      (alter (with_content (InnerHTML connect_error_scan)) resultDiv
                         (document w1))
                      (log w1 ++ [ConsoleError "Network error during URL scan:" e]))
    end.
Proof.
  intros Hok. unfold handleUrlScan_settled, handleUrlScan_try, try_catch. exec.
  rewrite Hok. exec. by destruct (displayScanResult _ _ _ _) as [[[]|e] w1].
Qed.

(** C10, as the code has it.  [displayScanResult] returns only for results
    whose [overall_summary] is a string or an array (the values with an
    [includes] method) and whose [details] is present and not [null].  For
    a 2xx scan reply whose body lacks either field it throws before it
    writes anything, and the [catch] of [handleUrlScan] puts the connection
    error into the result element. *)
Theorem displayScanResult_total {B : Builtins} (data : json) (resultDiv : ref)
    (clock : string) (w : world) :
  ((∃ w', displayScanResult data resultDiv clock w = (Return tt, w'))
     → renderable data = true) ∧
  (field data "overall_summary" = None ∨ field data "details" = None →
   displayScanResult data resultDiv clock w = (Throw TypeError, w) ∧
   ∀ status urlInput, status_ok status = true →
     handleUrlScan_settled urlInput resultDiv (Response status (Some data)) clock w =
       (Return tt,
        World (sessionStorage w)
          (alter (with_content (InnerHTML connect_error_scan)) resultDiv (document w))
          (log w ++ [ConsoleError "Network error during URL scan:" TypeError]))).
Proof.
  split.
  - intros [w' Hrun]. destruct (renderable data) eqn:Hr; [done|].
    by rewrite displayScanResult_not_renderable in Hrun.
  - intros Hmissing.
    assert (renderable data = false) as Hr.
    { unfold renderable. destruct Hmissing as [-> | ->]; [done|].
      by destruct (field data "overall_summary") as [[]|]. }
    split; [by apply displayScanResult_not_renderable|].
    intros status urlInput Hok.
    rewrite handleUrlScan_settled_accepted by done.
    by rewrite displayScanResult_not_renderable.
Qed.

Lemma displayScanResult_total_witness :
  let data := JObj [("url", JStr "http://x"); ("overall_summary", JStr "CLEAN")] in
  let w := on_load {[ "currentUserId" := "7" ]} in
  @handleUrlScan_settled ecma 6%nat 7%nat (Response 200 (Some data))
    "12:00:00" w =
    (Return tt,
     World (sessionStorage w)
       (alter (with_content (InnerHTML connect_error_scan)) 7%nat (document w))
       (log w ++ [ConsoleError "Network error during URL scan:" TypeError])).
Proof.
  exact (proj2 (proj2 (@displayScanResult_total ecma
           (JObj [("url", JStr "http://x"); ("overall_summary", JStr "CLEAN")])
           7%nat "12:00:00" (on_load {[ "currentUserId" := "7" ]}))
           (or_intror eq_refl)) 200 6%nat eq_refl).
Defined.

(** C10, as stated, fails: a result whose [overall_summary] is an array and
    whose [details] is a number is rendered. *)
Lemma displayScanResult_array_summary :
  let data := JObj [("url", JStr "http://x");
                    ("overall_summary", JArr [JStr "DANGER"]);
                    ("details", JNum 0)] in
  ¬ ((∃ w', @displayScanResult ecma data 7%nat "12:00:00" (on_load ∅)
            = (Return tt, w')) →
     (∃ s, field data "overall_summary" = Some (JStr s)) ∧
     (∃ members, field data "details" = Some (JObj members))).
Proof.
  intros data H. destruct H as [[s Hs] _]; [|done].
  eexists. vm_compute. reflexivity.
Qed.

(** ** Connection errors *)

Lemma logged_eq w w' l : log w' = (log w ++ l)%list → logged w w' = l.
Proof. unfold logged. intros ->. apply drop_app_length. Qed.

Lemma alerts_app l1 l2 : alerts (l1 ++ l2) = (alerts l1 ++ alerts l2)%list.
Proof. apply omap_app. Qed.

Lemma log_update_element r f : keeps log (update_element r f).
Proof. by intros w. Qed.

Lemma log_hide_views : keeps log hide_views.
Proof. by intros w. Qed.

Lemma log_store key s : keeps log (store key s).
Proof. by intros w. Qed.

Lemma log_removeItem key : keeps log (removeItem key).
Proof. by intros w. Qed.

#[export] Hint Resolve log_update_element log_hide_views log_store log_removeItem : frame.

Lemma log_showView v : keeps log (showView v).
Proof. unfold showView. frame. Qed.

Lemma log_goToDashboard : keeps log goToDashboard.
Proof. unfold goToDashboard. frame; apply log_showView. Qed.

Lemma log_setItem `{Builtins} key v : keeps log (setItem key v).
Proof. unfold setItem. frame. Qed.

Lemma log_displayScanResult `{Builtins} data target clock :
  keeps log (displayScanResult data target clock).
Proof.
  unfold displayScanResult, statusClass_of, virustotal_html, google_safe_browsing_html.
  frame.
Qed.

(** *** Computations that only add to the log *)

Section appends.
Context (P : effect → Prop).

Lemma appends_keeps {A} (m : M A) : keeps log m → appends P m.
Proof. intros Hm w. exists []. by rewrite Hm, app_nil_r. Qed.

Lemma appends_bind {A B} (m : M A) (f : A → M B) :
  appends P m → (∀ a, appends P (f a)) → appends P (m ≫= f).
Proof.
  intros Hm Hf w. rewrite bind_run. destruct (Hm w) as (l1 & Hl1 & HP1).
  destruct (m w) as [[a|e] w1]; simpl in *; [|by exists l1].
  destruct (Hf a w1) as (l2 & Hl2 & HP2). exists (l1 ++ l2)%list.
  rewrite Hl2, Hl1, app_assoc. split; [done|]. by apply Forall_app.
Qed.

Lemma appends_alert message : P (Alert message) → appends P (alert message).
Proof. intros HP w. exists [Alert message]. split; [done|]. by apply Forall_singleton. Qed.
End appends.

Lemma not_alerted message l : Forall (λ e, e ≠ Alert message) l → message ∉ alerts l.
Proof.
  induction 1 as [|e l He Hl IH]; [apply not_elem_of_nil|].
  destruct e as [m| |]; simpl; try done.
  apply not_elem_of_cons. split; [congruence | done].
Qed.

(** A handler whose [try] block never raises the alert of its [catch]
    raises that alert exactly when the [try] block throws. *)
Lemma caught_alert (body : M unit) (note message : string) (w : world) :
  appends (λ e, e ≠ Alert message) body →
  message ∈ alerts (logged w
              (try_catch body (λ error, console_error note error ;; alert message) w).2)
  ↔ throws body w.
Proof.
  intros Hbody. destruct (Hbody w) as (l & Hl & HP). unfold try_catch, throws.
  destruct (body w) as [[[]|e] w1]; simpl in *.
  - rewrite (logged_eq _ _ _ Hl). split; [by intros ?%not_alerted | by intros (? & ? & ?)].
  - exec. simpl. rewrite Hl, <- !app_assoc, logged_app, alerts_app. split; [eauto|].
    intros _. apply elem_of_app. right. simpl. apply list_elem_of_singleton. done.
Qed.

Ltac differ n :=
  let Heq := fresh in
  intros Heq;
  apply (f_equal (λ e, match e with Alert m => String.get n m | _ => None end)) in Heq;
  by lazy in Heq.

Lemma rejection_is_not_connect_error text :
  connect_error_registration ≠ "Registration failed: " +:+ text ∧
  connect_error_login ≠ "Login failed: " +:+ text ∧
  connect_error_scan ≠ p_class "text-danger" ("Scan failed: " +:+ text).
Proof.
  repeat split; intros Heq.
  - apply (f_equal (String.get 0)) in Heq. by lazy in Heq.
  - apply (f_equal (String.get 0)) in Heq. by lazy in Heq.
  - apply (f_equal (String.get 23)) in Heq. by lazy in Heq.
Qed.

Lemma scan_result_is_not_connect_error class url summary detailsHtml clock :
  scan_result_html class url summary detailsHtml clock ≠ connect_error_scan.
Proof. intros Heq. apply (f_equal (String.get 0)) in Heq. by lazy in Heq. Qed.

Section caught.
Context `{Builtins}.

Lemma handleRegistration_try_appends r :
  appends (λ e, e ≠ Alert connect_error_registration) (handleRegistration_try r).
Proof.
  unfold handleRegistration_try.
  apply appends_bind; [apply appends_keeps; auto with frame | intros response].
  apply appends_bind; [apply appends_keeps; auto with frame | intros result].
  destruct (response_ok response).
  - apply appends_bind; [apply appends_alert; differ 0%nat | intros _].
    apply appends_keeps, log_showView.
  - apply appends_bind; [apply appends_keeps; auto with frame | intros detail].
    apply appends_bind; [apply appends_keeps; auto with frame | intros message].
    apply appends_alert. differ 0%nat.
Qed.

Lemma handleLogin_try_appends r :
  appends (λ e, e ≠ Alert connect_error_login) (handleLogin_try r).
Proof.
  unfold handleLogin_try.
  apply appends_bind; [apply appends_keeps; auto with frame | intros response].
  apply appends_bind; [apply appends_keeps; auto with frame | intros result].
  destruct (response_ok response).
  - apply appends_bind; [apply appends_alert; differ 0%nat | intros _].
    apply appends_keeps. frame; auto using log_setItem, log_goToDashboard.
  - apply appends_bind; [apply appends_keeps; auto with frame | intros detail].
    apply appends_bind; [apply appends_keeps; auto with frame | intros message].
    apply appends_alert. differ 0%nat.
Qed.

Lemma handleRegistration_settled_rejected status j w :
  status_ok status = false → is_null j = false →
  handleRegistration_settled (Response status (Some j)) w =
    (Return tt,
     World (sessionStorage w) (document w)
       (log w ++
        match rejection_text "An unknown error occurred." j with
        | Some text => [Alert ("Registration failed: " +:+ text)]
        | None => [ConsoleError "Network error during registration:" TypeError;
                   Alert connect_error_registration]
        end)).
Proof.
  intros Hok Hj. unfold handleRegistration_settled, handleRegistration_try, rejection_text.
  unfold try_catch. exec. rewrite Hok. exec.
  unfold to_string. destruct (ToString _) as [text|]; exec; [done|].
  simpl. by rewrite <- app_assoc.
Qed.

Lemma innerHTML_alter_content html r d :
  (r < length d)%nat → innerHTML (alter (with_content (InnerHTML html)) r d) r = Some html.
Proof.
  intros [e He]%lookup_lt_is_Some_2. unfold innerHTML.
  rewrite list_lookup_alter_eq, He. simpl. by destruct e.
Qed.

Lemma innerHTML_alter_value v u r d :
  innerHTML (alter (with_value v) u d) r = innerHTML d r.
Proof.
  unfold innerHTML. destruct (decide (u = r)) as [->|Hne].
  - rewrite list_lookup_alter_eq. by destruct (d !! r) as [[]|].
  - by rewrite list_lookup_alter_ne by done.
Qed.

Lemma handleUrlScan_settled_rejected urlInput resultDiv status j clock w :
  status_ok status = false → is_null j = false →
  handleUrlScan_settled urlInput resultDiv (Response status (Some j)) clock w =
    match rejection_text "Server error." j with
    | Some text =>
        (Return tt,
         World (sessionStorage w)
           (alter (with_content (InnerHTML
              (p_class "text-danger" ("Scan failed: " +:+ text)))) resultDiv (document w))
           (log w))
    | None =>
        (Return tt,
         World (sessionStorage w)
           (alter (with_content (InnerHTML connect_error_scan)) resultDiv (document w))
           (log w ++ [ConsoleError "Network error during URL scan:" TypeError]))
    end.
Proof.
  intros Hok Hj. unfold handleUrlScan_settled, handleUrlScan_try, rejection_text.
  unfold try_catch. exec. rewrite Hok. exec.
  unfold to_string. by destruct (ToString _) as [text|]; exec.
Qed.

(** The [try] block of [handleUrlScan] throws before it has written
    anything, or it returns with the result element holding something
    else than the connection error. *)
Lemma handleUrlScan_try_cases urlInput resultDiv r clock w :
  (resultDiv < length (document w))%nat →
  (∃ e, handleUrlScan_try urlInput resultDiv r clock w = (Throw e, w)) ∨
  (∃ w1 html,
     handleUrlScan_try urlInput resultDiv r clock w = (Return tt, w1) ∧
     innerHTML (document w1) resultDiv = Some html ∧ html ≠ connect_error_scan).
Proof.
  intros Hlt. unfold handleUrlScan_try. destruct r as [|status [j|]].
  - left. by eexists.
  - exec. destruct (status_ok status) eqn:Hok.
    + exec.
      destruct (displayScanResult_cases j clock)
        as [-> | (class & url & summary & details & detailsHtml & _ & _ & _ & _ & _ & _ & ->)].
      * left. by eexists.
      * right. exec. eexists _, _. split; [done|]. simpl.
        rewrite innerHTML_alter_value, innerHTML_alter_content by done.
        split; [done|]. apply scan_result_is_not_connect_error.
    + destruct (is_null j) eqn:Hj; [destruct j; try done; left; by eexists|].
      exec. unfold to_string. destruct (ToString _) as [text|]; exec.
      * right. eexists _, _. split; [done|]. simpl.
        rewrite innerHTML_alter_content by done. split; [done|].
        intros Heq. symmetry in Heq. by apply (rejection_is_not_connect_error text) in Heq.
      * left. by eexists.
  - left. by eexists.
Qed.

Lemma scan_connect_error urlInput resultDiv r clock w :
  (resultDiv < length (document w))%nat →
  innerHTML (document (handleUrlScan_settled urlInput resultDiv r clock w).2) resultDiv
    = Some connect_error_scan
  ↔ throws (handleUrlScan_try urlInput resultDiv r clock) w.
Proof.
  intros Hlt. unfold handleUrlScan_settled, try_catch, throws.
  destruct (handleUrlScan_try_cases urlInput resultDiv r clock w Hlt)
    as [[e ->] | (w1 & html & -> & Hhtml & Hne)].
  - exec. simpl. rewrite innerHTML_alter_content by done. split; [eauto | done].
  - simpl. rewrite Hhtml. split; [congruence | by intros (? & ? & ?)].
Qed.


End caught.



(** ** The script at work on the sample page *)

(** A login as [a@b.com] that the gateway accepts with [{id: 7, email}],
    followed by a scan that it answers with a verdict. *)
Example login_then_scan :
  let accepted := JObj [("id", JNum 7); ("email", JStr "a@b.com")] in
  let verdict :=
    JObj [("url", JStr "http://x"); ("overall_summary", JStr "DANGER: malicious");
          ("details", JObj [("virustotal",
             JObj [("status", JStr "done"); ("malicious_count", JNum 3);
                   ("harmless_count", JNum 10); ("results_url", JStr "u")])])] in
  let c := @run ecma
             [ SubmitLogin; Settled 0 (Response 200 (Some accepted)) "12:00:00";
               SubmitScan; Settled 0 (Response 200 (Some verdict)) "12:00:05" ]
             (Controller (on_load ∅) []) in
  userId (page c) = Some "7" ∧ userEmail (page c) = Some "a@b.com" ∧
  visible_views (document (page c)) = ["dashboard-view"] ∧
  requests (log (page c)) =
    [ Request (API_BASE_URL +:+ "/login") "POST" "application/json"
        (JObj [("email", JStr "a@b.com")]);
      Request (API_BASE_URL +:+ "/scan") "POST" "application/json"
        (JObj [("url", JStr "http://x"); ("user_id", JNum 7)]) ] ∧
  alerts (log (page c)) = ["Login successful!"] ∧
  inflight c = [] ∧
  (λ html, String_includes html "text-danger") <$> innerHTML (document (page c)) 7%nat
    = Some true.
Proof. vm_compute. repeat split. Qed.

(** Two scans in flight settle in the reverse order: the result element
    shows the reply that arrived last. *)
Example overlapping_scans :
  let verdict summary :=
    Response 200 (Some (JObj [("url", JStr "http://x"); ("overall_summary", JStr summary);
                              ("details", JObj [])])) in
  let c := @run ecma
             [ SubmitScan; SubmitScan;
               Settled 1 (verdict "second") "12:00:05";
               Settled 0 (verdict "first") "12:00:09" ]
             (Controller (on_load {[ "currentUserId" := "7" ]}) []) in
  (λ html, String_includes html "first") <$> innerHTML (document (page c)) 7%nat
    = Some true ∧
  (λ html, String_includes html "second") <$> innerHTML (document (page c)) 7%nat
    = Some false.
Proof. vm_compute. repeat split. Qed.

(** * Further properties of the script *)

(** ** More frames *)

Lemma fmap_alter_same {A X} (g : A → X) (f : A → A) (i : nat) (l : list A) :
  (∀ x, g (f x) = g x) → g <$> alter f i l = g <$> l.
Proof.
  intros Hg. revert i. induction l as [|x l IH]; intros [|i]; try done.
  - rewrite alter_cons_0, !fmap_cons. by rewrite Hg.
  - rewrite alter_cons_S, !fmap_cons. by rewrite IH.
Qed.

Lemma fmap_fmap_same {A X} (g : A → X) (f : A → A) (l : list A) :
  (∀ x, g (f x) = g x) → g <$> (f <$> l) = g <$> l.
Proof. intros Hg. rewrite <- list_fmap_compose. apply list_fmap_ext. intros ? x _. apply Hg. Qed.

Lemma static_display d e : static (with_display d e) = static e.
Proof. by destruct e. Qed.
Lemma static_content c e : static (with_content c e) = static e.
Proof. by destruct e. Qed.
Lemma static_value v e : static (with_value v e) = static e.
Proof. by destruct e. Qed.
Lemma static_hide e : static (hide_view e) = static e.
Proof. unfold hide_view. destruct (has_class "view" e); [apply static_display | done]. Qed.

Lemma shape_display d e : shape (with_display d e) = shape e.
Proof. by destruct e. Qed.
Lemma shape_content c e : shape (with_content c e) = shape e.
Proof. by destruct e. Qed.
Lemma shape_hide e : shape (hide_view e) = shape e.
Proof. unfold hide_view. destruct (has_class "view" e); [apply shape_display | done]. Qed.

Lemma content_display d e : el_content (with_display d e) = el_content e.
Proof. by destruct e. Qed.
Lemma content_value v e : el_content (with_value v e) = el_content e.
Proof. by destruct e. Qed.
Lemma content_hide e : el_content (hide_view e) = el_content e.
Proof. unfold hide_view. destruct (has_class "view" e); [apply content_display | done]. Qed.

Section keeps_document.
Context {X : Type} (g : element → X).

Lemma document_emit e : keeps (λ w, g <$> document w) (emit e).
Proof. by intros w. Qed.

Lemma document_store k s : keeps (λ w, g <$> document w) (store k s).
Proof. by intros w. Qed.

Lemma document_removeItem k : keeps (λ w, g <$> document w) (removeItem k).
Proof. by intros w. Qed.

Lemma document_update_element r f :
  (∀ e, g (f e) = g e) → keeps (λ w, g <$> document w) (update_element r f).
Proof. intros Hg w. simpl. by apply fmap_alter_same. Qed.

Lemma document_hide_views :
  (∀ e, g (hide_view e) = g e) → keeps (λ w, g <$> document w) hide_views.
Proof. intros Hg w. simpl. by apply fmap_fmap_same. Qed.
End keeps_document.

Lemma statics_emit e : keeps statics (emit e).
Proof. by intros w. Qed.
Lemma statics_store k s : keeps statics (store k s).
Proof. by intros w. Qed.
Lemma statics_removeItem k : keeps statics (removeItem k).
Proof. by intros w. Qed.
Lemma statics_hide_views : keeps statics hide_views.
Proof. apply document_hide_views, static_hide. Qed.
Lemma statics_update_display r d : keeps statics (update_element r (with_display d)).
Proof. apply document_update_element, static_display. Qed.
Lemma statics_update_content r c : keeps statics (update_element r (with_content c)).
Proof. apply document_update_element, static_content. Qed.
Lemma statics_update_value r v : keeps statics (update_element r (with_value v)).
Proof. apply document_update_element, static_value. Qed.

#[export] Hint Resolve statics_emit statics_store statics_removeItem
  statics_hide_views statics_update_display statics_update_content
  statics_update_value : frame.

Lemma shapes_hide_views : keeps shapes hide_views.
Proof. apply document_hide_views, shape_hide. Qed.
Lemma shapes_update_display r d : keeps shapes (update_element r (with_display d)).
Proof. apply document_update_element, shape_display. Qed.
Lemma shapes_update_content r c : keeps shapes (update_element r (with_content c)).
Proof. apply document_update_element, shape_content. Qed.

#[export] Hint Resolve shapes_hide_views shapes_update_display shapes_update_content : frame.

Lemma sent_store k s : keeps sent (store k s).
Proof. by intros w. Qed.
Lemma sent_removeItem k : keeps sent (removeItem k).
Proof. by intros w. Qed.
Lemma sent_hide_views : keeps sent hide_views.
Proof. by intros w. Qed.
Lemma sent_update_element r f : keeps sent (update_element r f).
Proof. by intros w. Qed.
Lemma sent_alert m : keeps sent (emit (Alert m)).
Proof. intros w. unfold sent, requests. simpl. by rewrite omap_app, app_nil_r. Qed.
Lemma sent_console_error m e : keeps sent (emit (ConsoleError m e)).
Proof. intros w. unfold sent, requests. simpl. by rewrite omap_app, app_nil_r. Qed.

#[export] Hint Resolve sent_store sent_removeItem sent_hide_views sent_update_element
  sent_alert sent_console_error : frame.

Lemma alerted_update_element r f : keeps alerted (update_element r f).
Proof. by intros w. Qed.
Lemma alerted_console_error m e : keeps alerted (emit (ConsoleError m e)).
Proof. intros w. unfold alerted, alerts. simpl. by rewrite omap_app, app_nil_r. Qed.

#[export] Hint Resolve alerted_update_element alerted_console_error : frame.

(** Frames of the handlers, one observation after the other. *)
Ltac frame_handler :=
  unfold handleSignOut, onDOMContentLoaded, handleRegistration, handleRegistration_settled,
    handleLogin, handleLogin_settled, handleUrlScan, handleUrlScan_settled;
  unfold handleRegistration_try, handleLogin_try, handleUrlScan_try;
  unfold displayScanResult, goToDashboard, field_value;
  unfold statusClass_of, virustotal_html, google_safe_browsing_html, post;
  unfold alert, console_error, fetch;
  frame.

Lemma statics_showView v : keeps statics (showView v).
Proof. unfold showView. frame. Qed.
#[export] Hint Resolve statics_showView : frame.

Lemma shapes_showView v : keeps shapes (showView v).
Proof. unfold showView. frame. Qed.

Lemma sent_showView v : keeps sent (showView v).
Proof. unfold showView. frame. Qed.
#[export] Hint Resolve sent_showView : frame.

Lemma statics_settle {B : Builtins} p r clock : keeps statics (settle p r clock).
Proof. destruct p; simpl; frame_handler. Qed.

Lemma sent_settle {B : Builtins} p r clock : keeps sent (settle p r clock).
Proof. destruct p; simpl; frame_handler. Qed.

Lemma alerted_handleUrlScan_settled {B : Builtins} urlInput resultDiv r clock :
  keeps alerted (handleUrlScan_settled urlInput resultDiv r clock).
Proof. frame_handler. Qed.

Lemma statics_dispatch {B : Builtins} e c :
  statics (page (dispatch e c)) = statics (page c).
Proof.
  destruct e; simpl; unfold listen, submit; simpl.
  - apply statics_showView.
  - apply statics_showView.
  - assert (keeps statics handleSignOut) as H by frame_handler. apply H.
  - assert (keeps statics goToDashboard) as H by frame_handler. apply H.
  - assert (keeps statics (handleRegistration form)) as H by frame_handler.
    specialize (H (page c)). by destruct (handleRegistration form (page c)) as [[[]|] ?].
  - assert (keeps statics handleLogin) as H by frame_handler.
    specialize (H (page c)). by destruct (handleLogin (page c)) as [[[]|] ?].
  - assert (keeps statics handleUrlScan) as H by frame_handler.
    specialize (H (page c)). by destruct (handleUrlScan (page c)) as [[[]|] ?].
  - destruct (inflight c !! i) as [p|]; simpl; [apply statics_settle | done].
Qed.

(** ** showView, beyond the view it shows *)

Lemma fmap_alter_content c (i : nat) (d : list element) :
  el_content <$> alter (with_content c) i d = <[i := c]> (el_content <$> d).
Proof.
  revert i. induction d as [|e d IH]; intros [|i]; try done.
  rewrite alter_cons_S, !fmap_cons. simpl. by rewrite IH.
Qed.

Lemma element_by_id_showView_document id v (d : list element) :
  element_by_id id
    match element_by_id v (hide_view <$> d) with
    | Some i => alter (with_display "block") i (hide_view <$> d)
    | None => hide_view <$> d
    end
  = element_by_id id d.
Proof.
  destruct (element_by_id v (hide_view <$> d));
    by rewrite ?element_by_id_alter, ?element_by_id_fmap by auto with identity.
Qed.

(** X1. [showView] of an id that names no view element (no element at all,
    or an element that is not of class [view]) leaves no view visible. *)
Theorem showView_no_such_view (viewId : string) (w : world) :
  view_with_id (document w) viewId = false →
  visible_views (document (showView viewId w).2) = [].
Proof.
  intros Hv. destruct (showView_effect viewId w) as (_ & Hvis & _).
  by rewrite Hvis, Hv.
Qed.

Lemma showView_no_such_view_witness :
  view_with_id (document (on_load ∅)) "pricing-view" = false ∧
  visible_views (document (showView "pricing-view" (on_load ∅)).2) = [].
Proof. split; [reflexivity | by apply showView_no_such_view]. Defined.

(** X2. The contents of the elements after [showView]: for the dashboard,
    with a non-empty stored email and a welcome element, that element
    reads [Welcome, <email>] and no other content changes; in every other
    case no content changes at all, so an old welcome text stays. *)
Theorem showView_welcome (viewId : string) (w : world) :
  let w' := (showView viewId w).2 in
  if String.eqb viewId "dashboard-view" && item_truthy (userEmail w) then
    match element_by_id "welcome-message" (document w) with
    | Some i =>
        contents w' =
          <[i := TextContent ("Welcome, " +:+ default "" (userEmail w))]> (contents w)
    | None => contents w' = contents w
    end
  else contents w' = contents w.
Proof.
  unfold showView, contents, userEmail. unfold_script. cbn.
  pose proof (element_by_id_showView_document "welcome-message" viewId (document w)) as Hw.
  destruct (element_by_id viewId (hide_view <$> document w)) as [i|]; cbn;
    destruct (String.eqb viewId "dashboard-view"); cbn;
    try destruct (item_truthy _); cbn;
    rewrite ?Hw;
    try destruct (element_by_id "welcome-message" (document w)) as [j|]; cbn;
    rewrite ?fmap_alter_content;
    rewrite ?(fmap_alter_same el_content) by apply content_display;
    by rewrite ?(fmap_fmap_same el_content) by apply content_hide.
Qed.

(** X3. [showView] throws in one case only, a [TypeError]: the dashboard is
    asked for, a non-empty email is stored, and the page has no
    welcome-message element.  Every other call returns. *)
Theorem showView_throws (viewId : string) (w : world) :
  ((showView viewId w).1 = Throw TypeError ↔
     viewId = "dashboard-view" ∧ (∃ email, userEmail w = Some email ∧ email ≠ "") ∧
     element_by_id "welcome-message" (document w) = None) ∧
  ((showView viewId w).1 = Return tt ∨ (showView viewId w).1 = Throw TypeError).
Proof.
  rewrite showView_result. unfold no_welcome.
  destruct (String.eqb_spec viewId "dashboard-view") as [->|Hne]; simpl.
  - destruct (userEmail w) as [[|c email]|]; simpl.
    + split; [|by left]. split; [done|]. by intros (_ & (? & [= <-] & ?) & _).
    + destruct (element_by_id _ _); simpl.
      * split; [|by left]. split; [done|]. by intros (_ & _ & ?).
      * split; [|by right]. split; [|done]. intros _. eauto.
    + split; [|by left]. split; [done|]. by intros (_ & (? & ? & _) & _).
  - split; [|by left]. split; [done|]. by intros (? & _).
Qed.

(** X4. [showView] has no effect beyond the page: the session and the log
    are as before, and in every element only [style.display] and the
    content can differ (tag, id, name, classes, checked, value stay). *)
Theorem showView_only_display (viewId : string) (w : world) :
  let w' := (showView viewId w).2 in
  sessionStorage w' = sessionStorage w ∧ log w' = log w ∧ shapes w' = shapes w.
Proof.
  split; [apply storage_showView|]. split; [apply showView_effect|].
  apply shapes_showView.
Qed.

(** ** Sign-out, followed by something else *)

Lemma find_index_static (id : string) (d d' : list element) :
  static <$> d = static <$> d' →
  find_index (λ e, String.eqb (el_id e) id) d = find_index (λ e, String.eqb (el_id e) id) d'.
Proof.
  revert d'. induction d as [|e d IH]; intros [|e' d'] Heq; try done.
  rewrite !fmap_cons in Heq. injection Heq as _ Hid _ _ _ Hd.
  simpl. by rewrite (IH d' Hd), Hid.
Qed.

Lemma element_by_id_static (id : string) (d d' : list element) :
  static <$> d = static <$> d' → element_by_id id d = element_by_id id d'.
Proof.
  intros Heq. unfold element_by_id. destruct (String.eqb id ""); [done|].
  by apply find_index_static.
Qed.

Lemma has_class_static (c : string) (d d' : list element) (i : nat) :
  static <$> d = static <$> d' →
  from_option (has_class c) false (d !! i) = from_option (has_class c) false (d' !! i).
Proof.
  intros Heq. apply (f_equal (λ l, l !! i)) in Heq. rewrite !list_lookup_fmap in Heq.
  destruct (d !! i) as [e|], (d' !! i) as [e'|]; simplify_eq/=; try done.
  unfold has_class. by destruct e, e'; simplify_eq/=.
Qed.

Lemma view_with_id_static (d d' : list element) (v : string) :
  static <$> d = static <$> d' → view_with_id d v = view_with_id d' v.
Proof.
  intros Heq. unfold view_with_id. rewrite (element_by_id_static v d d' Heq).
  destruct (element_by_id v d'); [by apply has_class_static | done].
Qed.

Lemma statics_handleSignOut : keeps statics handleSignOut.
Proof. frame_handler. Qed.

(** X5. After a sign-out the dashboard is out of reach: on a page with a
    login view, [goToDashboard] shows the login view, whatever the session
    was before. *)
Theorem signOut_then_goToDashboard (w : world) :
  view_with_id (document w) "login-view" = true →
  visible_views (document (goToDashboard (handleSignOut w).2).2) = ["login-view"].
Proof.
  intros Hl. set (w1 := (handleSignOut w).2).
  destruct (goToDashboard_effect w1) as (_ & _ & Hvis & _). cbn zeta in Hvis.
  assert (userId w1 = None) as Hid.
  { unfold userId, w1. rewrite session_handleSignOut. unfold signed_out.
    rewrite lookup_delete_ne by done. by rewrite lookup_delete_eq. }
  rewrite Hid in Hvis. simpl in Hvis. rewrite Hvis.
  rewrite (view_with_id_static _ (document w)) by apply statics_handleSignOut.
  by rewrite Hl.
Qed.

Lemma signOut_then_goToDashboard_witness :
  let w := on_load {[ "currentUserId" := "7"; "currentUserEmail" := "a@b.com" ]} in
  view_with_id (document w) "login-view" = true ∧
  visible_views (document (goToDashboard (handleSignOut w).2).2) = ["login-view"].
Proof. split; [reflexivity | by apply signOut_then_goToDashboard]. Defined.

(** X6. After a sign-out a scan is refused: on a page with the URL input,
    [handleUrlScan] raises the log-in alert and sends nothing, whatever the
    input holds. *)
Theorem signOut_then_scan {B : Builtins} (w : world) (urlInput : ref) :
  find_index (λ e, String.eqb (el_id e) "url-input") (document w) = Some urlInput →
  let w1 := (handleSignOut w).2 in
  handleUrlScan w1 =
    (Return None,
     World (sessionStorage w1) (document w1)
       (log w1 ++ [Alert "You must be logged in to perform a scan."])).
Proof.
  intros Hinput w1.
  assert (find_index (λ e, String.eqb (el_id e) "url-input") (document w1) = Some urlInput)
    as Hinput1.
  { rewrite <- Hinput. apply find_index_static, statics_handleSignOut. }
  assert (sessionStorage w1 !! "currentUserId" = None) as Hid.
  { unfold w1. rewrite session_handleSignOut. unfold signed_out.
    rewrite lookup_delete_ne by done. by rewrite lookup_delete_eq. }
  unfold handleUrlScan. unfold_script. cbn.
  rewrite (element_by_id_find "url-input") by done. rewrite Hinput1. cbn. by rewrite Hid.
Qed.

Lemma signOut_then_scan_witness :
  let w := on_load {[ "currentUserId" := "7"; "currentUserEmail" := "a@b.com" ]} in
  let w1 := (handleSignOut w).2 in
  @handleUrlScan ecma w1 =
    (Return None,
     World (sessionStorage w1) (document w1)
       (log w1 ++ [Alert "You must be logged in to perform a scan."])).
Proof.
  exact (@signOut_then_scan ecma
           (on_load {[ "currentUserId" := "7"; "currentUserEmail" := "a@b.com" ]})
           6%nat eq_refl).
Defined.

(** X7. Sign-out undoes whatever a login did to the storage, also a login
    that wrote one item only: after any reply to a login and then a
    sign-out, the storage is the one before the login without the two
    session items; no other key is touched. *)
Theorem login_then_signOut {B : Builtins} (r : reply) (w : world) :
  sessionStorage (handleSignOut (handleLogin_settled r w).2).2
    = signed_out (sessionStorage w) ∧
  ∀ k, k ≠ "currentUserId" → k ≠ "currentUserEmail" →
    sessionStorage (handleSignOut (handleLogin_settled r w).2).2 !! k
      = sessionStorage w !! k.
Proof.
  assert (sessionStorage (handleSignOut (handleLogin_settled r w).2).2
            = signed_out (sessionStorage w)) as Heq.
  { rewrite session_handleSignOut. apply signed_out_handleLogin_settled. }
  split; [done|]. intros k Hid Hemail. rewrite Heq. unfold signed_out.
  by rewrite !lookup_delete_ne by done.
Qed.

(** X8. When the page loads, the dashboard is shown if a non-empty
    [currentUserId] is stored, and the home view (not the login view)
    otherwise; the session is not touched. *)
Theorem onDOMContentLoaded_shows (w : world) :
  view_with_id (document w) "dashboard-view" = true →
  view_with_id (document w) "home-view" = true →
  let w' := (onDOMContentLoaded w).2 in
  visible_views (document w') =
    [if item_truthy (userId w) then "dashboard-view" else "home-view"] ∧
  sessionStorage w' = sessionStorage w.
Proof.
  intros Hd Hh. split; [|apply storage_onDOMContentLoaded].
  unfold onDOMContentLoaded, userId. unfold_script. cbn.
  destruct (item_truthy _); by apply showView_visible.
Qed.

Lemma onDOMContentLoaded_shows_witness :
  let w := on_load ∅ in
  let w' := (onDOMContentLoaded w).2 in
  visible_views (document w') = ["home-view"] ∧ sessionStorage w' = sessionStorage w.
Proof. exact (onDOMContentLoaded_shows (on_load ∅) eq_refl eq_refl). Defined.

(** ** Submitting the forms *)

(** X9. [handleRegistration] sends its one request only when the form has
    a checked scope radio, the email control and the three controls of
    that scope (none for a scope that is neither [individual] nor
    [enterprise]; the controls of the other scope are not read).  The body
    then holds [scope], [email] and the fields of the scope, in this order.
    Otherwise it throws a [TypeError] and nothing at all has happened: no
    request, no alert.  Session and page are never touched. *)
Theorem handleRegistration_sends (form : list element) (w : world) :
  handleRegistration form w =
    if registration_ready form then
      (Return (Some RegistrationSent),
       World (sessionStorage w) (document w)
         (log w ++ [Fetch (Request (API_BASE_URL +:+ "/register") "POST" "application/json"
                             (registration_body form))]))
    else (Throw TypeError, w).
Proof.
  unfold handleRegistration, registration_ready, registration_body, form_scope, scope_fields,
    field_value, form_value.
  unfold_script.
  destruct (querySelector_checked "scope" form) as [checked|]; cbn; [|done].
  destruct (querySelector_id "reg-email" form) as [email|]; cbn; [|done].
  destruct (String.eqb (el_value checked) "individual"); cbn.
  - destruct (querySelector_id "reg-first-name" form); cbn; [|done].
    destruct (querySelector_id "reg-last-name" form); cbn; [|done].
    destruct (querySelector_id "reg-mobile" form); cbn; done.
  - destruct (String.eqb (el_value checked) "enterprise"); cbn; [|done].
    destruct (querySelector_id "reg-company-name" form); cbn; [|done].
    destruct (querySelector_id "reg-company-website" form); cbn; [|done].
    destruct (querySelector_id "reg-phone" form); cbn; done.
Qed.

Lemma handleRegistration_sends_witness :
  handleRegistration individual_form (on_load ∅) =
    (Return (Some RegistrationSent),
     World ∅ sample_page
       [Fetch (Request (API_BASE_URL +:+ "/register") "POST" "application/json"
                 (JObj [("scope", JStr "individual"); ("email", JStr "a@b.com");
                        ("first_name", JStr "Ada"); ("last_name", JStr "Lovelace");
                        ("mobile", JStr "555")]))]).
Proof. exact (handleRegistration_sends individual_form (on_load ∅)). Defined.

Lemma showView_returns v w :
  v ≠ "dashboard-view" → (showView v w).1 = Return tt.
Proof.
  intros Hv. rewrite showView_result.
  by destruct (String.eqb_spec v "dashboard-view").
Qed.

(** X10. What a reply with a JSON body does to a registration.  On 2xx,
    whatever the body, [null] included (it is not looked at), one alert
    reports success and the login view is shown.  On non-2xx the page is
    untouched: one alert gives the detail of the gateway if it is truthy,
    else the generic text; for a [null] body, or a detail [String] throws
    on, the connection error is reported instead.  In every case the
    handler returns and the session is as before. *)
Theorem handleRegistration_settled_effect {B : Builtins} (w : world) (status : Z)
    (j : json) :
  view_with_id (document w) "login-view" = true →
  let '(r, w') := handleRegistration_settled (Response status (Some j)) w in
  r = Return tt ∧ sessionStorage w' = sessionStorage w ∧
  if status_ok status then
    logged w w' = [Alert "Registration successful! Please sign in with your email."] ∧
    visible_views (document w') = ["login-view"]
  else
    document w' = document w ∧
    logged w w' =
      match (if is_null j then None else rejection_text "An unknown error occurred." j) with
      | Some text => [Alert ("Registration failed: " +:+ text)]
      | None => [ConsoleError "Network error during registration:" TypeError;
                 Alert connect_error_registration]
      end.
Proof.
  intros Hl.
  pose proof (storage_handleRegistration_settled (Response status (Some j)) w) as Hsto.
  destruct (status_ok status) eqn:Hok.
  - unfold handleRegistration_settled, handleRegistration_try, try_catch in *.
    revert Hsto. exec. rewrite Hok. exec.
    set (w1 := World _ _ _).
    pose proof (showView_effect "login-view" w1) as (Hlog & Hvis & _).
    pose proof (showView_returns "login-view" w1 ltac:(done)) as Hres.
    destruct (showView "login-view" w1) as [[[]|e] w2]; [|done].
    simpl in *. intros Hsto. rewrite (logged_eq w w2 [Alert _] Hlog), Hvis.
    subst w1. simpl. by rewrite Hl.
  - destruct (is_null j) eqn:Hj.
    + destruct j; try done.
      unfold handleRegistration_settled, handleRegistration_try, try_catch. exec.
      rewrite Hok. exec. simpl. by rewrite <- app_assoc, logged_app.
    + rewrite handleRegistration_settled_rejected by done.
      rewrite logged_app. by destruct (rejection_text _ j).
Qed.

Lemma handleRegistration_settled_effect_witness :
  let w := on_load ∅ in
  let '(r, w') := @handleRegistration_settled ecma (Response 201 (Some JNull)) w in
  r = Return tt ∧ sessionStorage w' = sessionStorage w ∧
  logged w w' = [Alert "Registration successful! Please sign in with your email."] ∧
  visible_views (document w') = ["login-view"].
Proof. exact (@handleRegistration_settled_effect ecma (on_load ∅) 201 JNull eq_refl). Defined.

(** X11. [handleLogin] sends one request, [POST /login] with the value the
    login-email control holds at that moment, and touches nothing else;
    on a page without that control it throws a [TypeError] before anything
    is sent. *)
Theorem handleLogin_sends (w : world) :
  handleLogin w =
    match element_by_id "login-email" (document w) with
    | Some i =>
        (Return (Some LoginSent),
         World (sessionStorage w) (document w)
           (log w ++ [Fetch (Request (API_BASE_URL +:+ "/login") "POST" "application/json"
                               (JObj [("email",
                                       JStr (default "" (el_value <$> document w !! i)))]))]))
    | None => (Throw TypeError, w)
    end.
Proof.
  unfold handleLogin. unfold_script. cbn.
  by destruct (element_by_id _ (document w)).
Qed.

(** X12. A scan that passes the two checks (a truthy stored id, a
    non-empty URL): on a page with the result element, the placeholder is
    written into it, one request goes out, [POST /scan] with the URL and
    [parseInt] of the stored id (a number, [NaN] included), the input keeps
    its value, and the handler holds on to both elements; on a page
    without the result element a [TypeError] is thrown and nothing is sent
    or shown. *)
Theorem handleUrlScan_sends {B : Builtins} (w : world) (urlInput : ref) (url id : string) :
  find_index (λ e, String.eqb (el_id e) "url-input") (document w) = Some urlInput →
  el_value <$> document w !! urlInput = Some url → url ≠ "" →
  userId w = Some id → id ≠ "" →
  handleUrlScan w =
    match element_by_id "url-scan-result" (document w) with
    | Some resultDiv =>
        (Return (Some (ScanSent urlInput resultDiv)),
         World (sessionStorage w)
           (alter (with_content
                     (InnerHTML (p_class "text-warning" "Scanning... This may take a moment.")))
              resultDiv (document w))
           (log w ++ [Fetch (Request (API_BASE_URL +:+ "/scan") "POST" "application/json"
                               (JObj [("url", JStr url);
                                      ("user_id", JNum (parseInt id))]))]))
    | None => (Throw TypeError, w)
    end.
Proof.
  intros Hinput Hurl Hne Hid Hidne. unfold handleUrlScan, userId in *. unfold_script. cbn.
  rewrite (element_by_id_find "url-input") by done.
  rewrite Hinput. cbn. rewrite Hurl, Hid. cbn.
  destruct id; [done|]. destruct url; [done|]. cbn.
  by destruct (element_by_id "url-scan-result" (document w)).
Qed.

Lemma handleUrlScan_sends_witness :
  let w := on_load {[ "currentUserId" := "7" ]} in
  @handleUrlScan ecma w =
    (Return (Some (ScanSent 6 7)),
     World (sessionStorage w)
       (alter (with_content
                 (InnerHTML (p_class "text-warning" "Scanning... This may take a moment.")))
          7%nat (document w))
       (log w ++ [Fetch (Request (API_BASE_URL +:+ "/scan") "POST" "application/json"
                           (JObj [("url", JStr "http://x"); ("user_id", JNum 7)]))])).
Proof.
  exact (@handleUrlScan_sends ecma (on_load {[ "currentUserId" := "7" ]})
           6%nat "http://x" "7" eq_refl eq_refl ltac:(discriminate) eq_refl
           ltac:(discriminate)).
Defined.

(** ** The reply to a scan *)

Lemma visible_emit e : keeps visible (emit e).
Proof. by intros w. Qed.
Lemma visible_store k s : keeps visible (store k s).
Proof. by intros w. Qed.
Lemma visible_removeItem k : keeps visible (removeItem k).
Proof. by intros w. Qed.
Lemma visible_update_content r c : keeps visible (update_element r (with_content c)).
Proof. intros w. apply visible_views_content. Qed.
Lemma visible_update_value r v : keeps visible (update_element r (with_value v)).
Proof.
  intros w. apply visible_views_alter; [auto with identity | by intros []].
Qed.

#[export] Hint Resolve visible_emit visible_store visible_removeItem
  visible_update_content visible_update_value : frame.

Lemma append_nil_r s : s +:+ "" = s.
Proof. induction s as [|c s IH]; [done|]. by rewrite append_String, IH. Qed.

(** The sections of the details: each one is there when its part of the
    details is truthy. *)
Lemma detailsHtml_of_sections {B : Builtins} details detailsHtml :
  (∀ w, detailsHtml_of details w = (Return detailsHtml, w)) →
  ∃ vt_html gsb_html,
    detailsHtml = vt_html +:+ gsb_html ∧
    (if ToBoolean (field details "virustotal")
     then ∀ w, virustotal_html (field details "virustotal") w = (Return vt_html, w)
     else vt_html = "") ∧
    (if ToBoolean (field details "google_safe_browsing")
     then ∀ w, google_safe_browsing_html (field details "google_safe_browsing") w
               = (Return gsb_html, w)
     else gsb_html = "").
Proof.
  intros Hrun. unfold detailsHtml_of in Hrun.
  assert (∃ vt_html,
            (if ToBoolean (field details "virustotal")
             then ∀ w, virustotal_html (field details "virustotal") w = (Return vt_html, w)
             else vt_html = "") ∧
            ∀ w, (if ToBoolean (field details "virustotal")
                  then virustotal_html (field details "virustotal") else mret "") w
                 = (Return vt_html, w)) as (vt_html & Hvt & Hvt').
  { destruct (ToBoolean (field details "virustotal")); [|by exists ""].
    destruct (reads_virustotal_html (field details "virustotal")) as [[h Hh]|Hh];
      [by exists h|].
    specialize (Hrun (World ∅ [] [])). by rewrite bind_run, Hh in Hrun. }
  assert (∃ gsb_html,
            (if ToBoolean (field details "google_safe_browsing")
             then ∀ w, google_safe_browsing_html (field details "google_safe_browsing") w
                       = (Return gsb_html, w)
             else gsb_html = "") ∧
            detailsHtml = vt_html +:+ gsb_html) as (gsb_html & Hgsb & ->).
  { pose proof (Hrun (World ∅ [] [])) as Hw. rewrite bind_run, Hvt' in Hw.
    destruct (ToBoolean (field details "google_safe_browsing")).
    - destruct (reads_google_safe_browsing_html (field details "google_safe_browsing"))
        as [[h Hh]|Hh]; rewrite bind_run, Hh in Hw; [|done].
      exists h. split; [done|]. by injection Hw.
    - exists "". split; [done|]. injection Hw as <-. by rewrite append_nil_r. }
  by exists vt_html, gsb_html.
Qed.

(** X13. The sections of a rendered result.  [displayScanResult] throws a
    [TypeError] before it has written anything, or it writes a text in
    which the VirusTotal section is there exactly when
    [details.virustotal] is truthy, the Safe Browsing section exactly when
    [details.google_safe_browsing] is truthy, in that order; which of the
    two it does, and the text, are the same whatever the element and
    whatever the state of the page. *)
Theorem displayScanResult_details {B : Builtins} (data : json) (clock : string) :
  (∀ target w, displayScanResult data target clock w = (Throw TypeError, w)) ∨
  ∃ details class url summary vt_html gsb_html,
    field data "details" = Some details ∧
    (if ToBoolean (field details "virustotal")
     then ∀ w, virustotal_html (field details "virustotal") w = (Return vt_html, w)
     else vt_html = "") ∧
    (if ToBoolean (field details "google_safe_browsing")
     then ∀ w, google_safe_browsing_html (field details "google_safe_browsing") w
               = (Return gsb_html, w)
     else gsb_html = "") ∧
    ∀ target w,
      displayScanResult data target clock w =
        (Return tt,
         World (sessionStorage w)
           (alter (with_content (InnerHTML
              (scan_result_html class url summary (vt_html +:+ gsb_html) clock)))
              target (document w))
           (log w)).
Proof.
  destruct (displayScanResult_cases data clock)
    as [Hthrow|(class & url & summary & details & detailsHtml & _ & _ & _ & _ & Hdet
                & Hdetails & Hrun)]; [by left|].
  right. destruct (detailsHtml_of_sections details detailsHtml Hdetails)
    as (vt_html & gsb_html & -> & Hvt & Hgsb).
  by exists details, class, url, summary, vt_html, gsb_html.
Qed.

Lemma fmap_alter_value v (i : nat) (d : list element) :
  el_value <$> alter (with_value v) i d = <[i := v]> (el_value <$> d).
Proof.
  revert i. induction d as [|e d IH]; intros [|i]; try done.
  rewrite alter_cons_S, !fmap_cons. simpl. by rewrite IH.
Qed.

Lemma value_content c e : el_value (with_content c e) = el_value e.
Proof. by destruct e. Qed.

(** The document after a reply to a scan: the result element has a new
    text and, for a reply that is rendered, the input is emptied; the text
    and what is done depend on the reply alone. *)
Lemma handleUrlScan_settled_document {B : Builtins} urlInput resultDiv r clock :
  ∃ (rendered : bool) html console,
    (∀ w,
       handleUrlScan_settled urlInput resultDiv r clock w =
         (Return tt,
          World (sessionStorage w)
            ((if rendered then alter (with_value "") urlInput else id)
               (alter (with_content (InnerHTML html)) resultDiv (document w)))
            (log w ++ console))) ∧
    forallb is_console_error console = true ∧
    (if rendered then
       accepted r = true ∧ ∀ w, ¬ throws (handleUrlScan_try urlInput resultDiv r clock) w
     else
       accepted r = false ∨ ∀ w, throws (handleUrlScan_try urlInput resultDiv r clock) w).
Proof.
  destruct r as [|status [j|]].
  - exists false, connect_error_scan, [ConsoleError "Network error during URL scan:" FetchFailed].
    split; [|split; [done | by left]]. intros w. by unfold handleUrlScan_settled, try_catch.
  - cbn [accepted]. destruct (status_ok status) eqn:Hok.
    + destruct (displayScanResult_cases j clock)
        as [Hthrow | (class & url & summary & details & detailsHtml
                      & _ & _ & _ & _ & _ & _ & Hrun)].
      * exists false, connect_error_scan,
          [ConsoleError "Network error during URL scan:" TypeError].
        split; [|split; [done|]].
        -- intros w. rewrite handleUrlScan_settled_accepted by done. by rewrite Hthrow.
        -- right. intros w. unfold throws, handleUrlScan_try. exec. rewrite Hok. exec.
           rewrite Hthrow. by eexists _, _.
      * exists true, (scan_result_html class url summary detailsHtml clock), [].
        split; [|split; [done|split; [done|]]].
        -- intros w. rewrite handleUrlScan_settled_accepted by done. rewrite Hrun.
           simpl. by rewrite app_nil_r.
        -- intros w (e & w' & Hthrows). revert Hthrows.
           unfold handleUrlScan_try. exec. rewrite Hok. exec. by rewrite Hrun.
    + destruct (is_null j) eqn:Hj.
      * exists false, connect_error_scan,
          [ConsoleError "Network error during URL scan:" TypeError].
        split; [|split; [done | by left]]. intros w. destruct j; try done.
        unfold handleUrlScan_settled, handleUrlScan_try, try_catch. exec.
        rewrite Hok. by exec.
      * destruct (rejection_text "Server error." j) as [text|] eqn:Htext.
        -- exists false, (p_class "text-danger" ("Scan failed: " +:+ text)), [].
           split; [|split; [done | by left]]. intros w.
           rewrite handleUrlScan_settled_rejected, Htext by done. simpl.
           by rewrite app_nil_r.
        -- exists false, connect_error_scan,
             [ConsoleError "Network error during URL scan:" TypeError].
           split; [|split; [done | by left]]. intros w.
           by rewrite handleUrlScan_settled_rejected, Htext by done.
  - exists false, connect_error_scan, [ConsoleError "Network error during URL scan:" SyntaxError].
    split; [|split; [done|]].
    + intros w. by unfold handleUrlScan_settled, try_catch.
    + right. intros w. by eexists _, _.
Qed.

(** X14. A reply empties the URL input exactly when it is accepted and
    rendered (2xx, and the [try] block runs to its end); after a rejection,
    an unreadable body, a result that cannot be rendered or no response
    the input keeps what the user typed. *)
Theorem handleUrlScan_settled_input {B : Builtins} (urlInput resultDiv : ref) (r : reply)
    (clock : string) (w : world) :
  let w' := (handleUrlScan_settled urlInput resultDiv r clock w).2 in
  let try := handleUrlScan_try urlInput resultDiv r clock in
  (accepted r = true ∧ ¬ throws try w →
     el_value <$> document w' = <[urlInput := ""]> (el_value <$> document w)) ∧
  (accepted r = false ∨ throws try w →
     el_value <$> document w' = el_value <$> document w).
Proof.
  destruct (handleUrlScan_settled_document urlInput resultDiv r clock)
    as (rendered & html & console & -> & _ & Hrendered).
  cbn zeta. cbn [snd document]. destruct rendered; simpl.
  - destruct Hrendered as [Hok Hreturns]. split.
    + intros _. rewrite fmap_alter_value. f_equal. apply fmap_alter_same, value_content.
    + intros [Hno|Hthrows]; [congruence | by apply Hreturns in Hthrows].
  - split.
    + intros [Hok Hreturns]. destruct Hrendered as [Hno|Hthrows]; [congruence|].
      by destruct (Hreturns (Hthrows w)).
    + intros _. apply fmap_alter_same, value_content.
Qed.

Lemma handleUrlScan_settled_input_witness :
  let verdict := JObj [("url", JStr "http://x"); ("overall_summary", JStr "CLEAN");
                       ("details", JObj [])] in
  let w := on_load {[ "currentUserId" := "7" ]} in
  el_value <$> document (@handleUrlScan_settled ecma 6 7 (Response 200 (Some verdict))
                           "12:00:00" w).2
    = <[6%nat := ""]> (el_value <$> document w).
Proof.
  apply (@handleUrlScan_settled_input ecma 6%nat 7%nat). split; [reflexivity|].
  intros (e & w' & Hthrows). vm_compute in Hthrows. discriminate Hthrows.
Defined.

Lemma alerts_console_errors console :
  forallb is_console_error console = true → alerts console = [] ∧ requests console = [].
Proof.
  induction console as [|[] console IH]; simpl; try done.
Qed.


(** X16. Scans that overlap: the result element shows the reply that
    settled last, whatever settled before it. *)
Theorem overlapping_scans_last_wins {B : Builtins} (u1 u2 resultDiv : ref) (r1 r2 : reply)
    (clock1 clock2 : string) (w : world) :
  (resultDiv < length (document w))%nat →
  let first := (handleUrlScan_settled u1 resultDiv r1 clock1 w).2 in
  innerHTML (document (handleUrlScan_settled u2 resultDiv r2 clock2 first).2) resultDiv
    = innerHTML (document (handleUrlScan_settled u2 resultDiv r2 clock2 w).2) resultDiv ∧
  is_Some (innerHTML (document (handleUrlScan_settled u2 resultDiv r2 clock2 w).2) resultDiv).
Proof.
  intros Hlt first.
  assert (resultDiv < length (document first))%nat as Hlt1.
  { unfold first.
    destruct (handleUrlScan_settled_document u1 resultDiv r1 clock1)
      as (rendered & html & console & -> & _).
    simpl. destruct rendered; simpl; by rewrite !length_alter. }
  destruct (handleUrlScan_settled_document u2 resultDiv r2 clock2)
    as (rendered & html & console & Hrun & _).
  rewrite !Hrun. simpl.
  assert (∀ d, (resultDiv < length d)%nat →
            innerHTML ((if rendered then alter (with_value "") u2 else id)
                         (alter (with_content (InnerHTML html)) resultDiv d)) resultDiv
            = Some html) as Hhtml.
  { intros d Hd. destruct rendered; simpl;
      by rewrite ?innerHTML_alter_value, innerHTML_alter_content. }
  rewrite !Hhtml by done. eauto.
Qed.

Lemma overlapping_scans_last_wins_witness :
  let w := on_load {[ "currentUserId" := "7" ]} in
  let first := (@handleUrlScan_settled ecma 6 7 (Response 500 None)
                  "12:00:05" w).2 in
  innerHTML (document (@handleUrlScan_settled ecma 6 7 NoResponse
                         "12:00:09" first).2) 7%nat
    = innerHTML (document (@handleUrlScan_settled ecma 6 7 NoResponse
                             "12:00:09" w).2) 7%nat.
Proof.
  exact (proj1 (@overlapping_scans_last_wins ecma 6%nat 6%nat 7%nat
                  (Response 500 None) NoResponse "12:00:05" "12:00:09"
                  (on_load {[ "currentUserId" := "7" ]}) ltac:(simpl; lia))).
Defined.

(** ** All listeners *)

Lemma try_catch_returns (body : M unit) (handler : exn → M unit) w :
  (∀ e w', (handler e w').1 = Return tt) → (try_catch body handler w).1 = Return tt.
Proof.
  intros Hh. unfold try_catch. destruct (body w) as [[[]|e] w']; [done | apply Hh].
Qed.

(** X17. Whatever the gateway answers, and whatever the page lacks, the
    rest of a handler returns: no exception leaves it.  And it sends no
    request: nothing is retried. *)
Theorem settle_returns {B : Builtins} (p : pending) (r : reply) (clock : string)
    (w : world) :
  (settle p r clock w).1 = Return tt ∧
  requests (log (settle p r clock w).2) = requests (log w).
Proof.
  split; [|apply (sent_settle p r clock w)].
  destruct p; simpl; apply try_catch_returns; intros e w'; by unfold_script.
Qed.

Lemma visible_displayScanResult {B : Builtins} data target clock :
  keeps visible (displayScanResult data target clock).
Proof. frame_handler. Qed.

(** X18. Submitting a form changes neither the session nor the view that
    is visible, for each of the three forms and whether or not a request
    goes out. *)
Theorem submit_keeps_view {B : Builtins} (form : list element) (w : world) :
  let after (m : M (option pending)) :=
    (sessionStorage (m w).2, visible_views (document (m w).2)) in
  let before := (sessionStorage w, visible_views (document w)) in
  after (handleRegistration form) = before ∧
  after handleLogin = before ∧
  after handleUrlScan = before.
Proof.
  assert (keeps visible (handleRegistration form)) as Hr by frame_handler.
  assert (keeps visible handleLogin) as Hl by frame_handler.
  assert (keeps visible handleUrlScan) as Hs by frame_handler.
  cbn zeta. repeat split; f_equal;
    first [ apply storage_handleRegistration | apply storage_handleLogin
          | apply storage_handleUrlScan | apply Hr | apply Hl | apply Hs ].
Qed.

Lemma Array_includes_spec items t : Array_includes items t = true ↔ JStr t ∈ items.
Proof.
  unfold Array_includes. induction items as [|x items IH]; simpl.
  - split; [done | by intros ?%elem_of_nil].
  - rewrite orb_true_iff, IH, elem_of_cons. split.
    + intros [Hx|?]; [|by right]. left.
      destruct x; try done. by apply String.eqb_eq in Hx as ->.
    + intros [<-|?]; [|by right]. left. apply String.eqb_refl.
Qed.

(** X19. A summary that is an array is matched item by item: the class is
    ["text-danger"] when some item is the string ["DANGER"] itself, else
    ["text-warning"] when some item is ["WARNING"] itself, else
    ["text-success"]; an item that only contains the word does not count. *)
Theorem statusClass_from_array (data : json) (items : list json) (w : world) :
  field data "overall_summary" = Some (JArr items) →
  ∃ class,
    statusClass_of data w = (Return class, w) ∧
    (JStr "DANGER" ∈ items → class = "text-danger") ∧
    (JStr "DANGER" ∉ items → JStr "WARNING" ∈ items → class = "text-warning") ∧
    (JStr "DANGER" ∉ items → JStr "WARNING" ∉ items → class = "text-success").
Proof.
  intros Hs.
  exists (status_class (Array_includes items "DANGER") (Array_includes items "WARNING")).
  rewrite statusClass_of_run, Hs. split; [done|]. unfold status_class.
  destruct (Array_includes items "DANGER") eqn:Hd;
    destruct (Array_includes items "WARNING") eqn:Hw;
    repeat split; try done; intros;
    repeat match goal with
    | H : Array_includes _ _ = true |- _ => apply Array_includes_spec in H
    | H : Array_includes _ _ = false |- _ =>
        apply not_true_iff_false in H; rewrite Array_includes_spec in H
    end; done.
Qed.

Lemma statusClass_from_array_witness :
  let data := JObj [("overall_summary", JArr [JStr "no DANGER here"; JStr "WARNING"])] in
  ∃ class,
    statusClass_of data (on_load ∅) = (Return class, on_load ∅) ∧
    (JStr "DANGER" ∉ [JStr "no DANGER here"; JStr "WARNING"] →
     JStr "WARNING" ∈ [JStr "no DANGER here"; JStr "WARNING"] → class = "text-warning").
Proof.
  destruct (statusClass_from_array
              (JObj [("overall_summary", JArr [JStr "no DANGER here"; JStr "WARNING"])])
              [JStr "no DANGER here"; JStr "WARNING"] (on_load ∅) eq_refl)
    as (class & Hrun & _ & Hwarning & _).
  exists class. split; [exact Hrun | exact Hwarning].
Defined.


(** ** One view at a time *)

Section preserves.
Context (P : world → Prop).

Lemma preserves_bind {A C} (m : M A) (f : A → M C) :
  preserves P m → (∀ a, preserves P (f a)) → preserves P (m ≫= f).
Proof.
  intros Hm Hf w Hw. unfold mbind, M_bind. specialize (Hm w Hw).
  destruct (m w) as [[a|e] w']; simpl in *; [|done].
  by apply Hf.
Qed.

Lemma preserves_try_catch {A} (m : M A) (h : exn → M A) :
  preserves P m → (∀ e, preserves P (h e)) → preserves P (try_catch m h).
Proof.
  intros Hm Hh w Hw. unfold try_catch. specialize (Hm w Hw).
  destruct (m w) as [[a|e] w']; simpl in *; [done|].
  by apply Hh.
Qed.

Lemma preserves_when (b : bool) (m : M unit) : preserves P m → preserves P (when b m).
Proof. destruct b; [done | by intros _ w]. Qed.

Lemma preserves_keeps {A X} (obs : world → X) (m : M A) :
  (∀ w w', obs w' = obs w → P w → P w') → keeps obs m → preserves P m.
Proof. intros HP Hm w Hw. apply (HP w); [apply Hm | done]. Qed.
End preserves.

Lemma at_most_one_view_visible {A} (m : M A) :
  keeps visible m → preserves at_most_one_view m.
Proof.
  apply preserves_keeps. unfold at_most_one_view, visible. by intros w w' ->.
Qed.

Lemma at_most_one_view_showView v : preserves at_most_one_view (showView v).
Proof.
  intros w _. unfold at_most_one_view.
  destruct (showView_effect v w) as (_ & -> & _).
  destruct (view_with_id _ _); simpl; lia.
Qed.

(** Decompose an invariant goal along the structure of the computation. *)
Ltac invariant :=
  unfold handleSignOut, handleRegistration_settled, handleLogin_settled;
  unfold handleRegistration_try, handleLogin_try;
  unfold goToDashboard;
  unfold alert, console_error;
  repeat first
    [ match goal with
      | |- preserves _ (showView _) => apply at_most_one_view_showView
      end
    | apply preserves_bind
    | apply preserves_try_catch
    | apply preserves_when
    | apply at_most_one_view_visible; solve [auto with frame]
    | progress intros
    | match goal with
      | |- preserves _ (match ?x with _ => _ end) => destruct x
      end ].

Lemma at_most_one_view_dispatch {B : Builtins} e c :
  at_most_one_view (page c) → at_most_one_view (page (dispatch e c)).
Proof.
  intros Hc.
  assert (∀ m : M (option pending), keeps visible m →
            at_most_one_view (page (submit m c))) as Hsubmit.
  { intros m Hm. pose proof (at_most_one_view_visible m Hm (page c) Hc) as H.
    unfold submit. by destruct (m (page c)) as [[[]|] ?]. }
  destruct e; simpl; unfold listen; simpl.
  - by apply at_most_one_view_showView.
  - by apply at_most_one_view_showView.
  - assert (preserves at_most_one_view handleSignOut) as H by invariant. by apply H.
  - assert (preserves at_most_one_view goToDashboard) as H by invariant. by apply H.
  - apply Hsubmit. frame_handler.
  - apply Hsubmit. frame_handler.
  - apply Hsubmit. frame_handler.
  - destruct (inflight c !! i) as [[]|]; simpl; [| | |done].
    + assert (preserves at_most_one_view (handleRegistration_settled r)) as H by invariant.
      by apply H.
    + assert (preserves at_most_one_view (handleLogin_settled r)) as H by invariant.
      by apply H.
    + apply at_most_one_view_visible; [frame_handler | done].
Qed.



(** ** The scope radios *)

Lemma onScopeChange_run individualFields enterpriseFields value w :
  let shown := if String.eqb value "individual" then "block" else "none" in
  let hidden := if String.eqb value "individual" then "none" else "block" in
  onScopeChange individualFields enterpriseFields value w =
    match individualFields, enterpriseFields with
    | Some i, Some e =>
        (Return tt,
         World (sessionStorage w)
           (alter (with_display hidden) e (alter (with_display shown) i (document w)))
           (log w))
    | Some i, None =>
        (Throw TypeError,
         World (sessionStorage w) (alter (with_display shown) i (document w)) (log w))
    | None, _ => (Throw TypeError, w)
    end.
Proof.
  unfold onScopeChange. unfold_script.
  by destruct (String.eqb value "individual"), individualFields, enterpriseFields.
Qed.

Lemma fmap_alter_display v (i : nat) (d : list element) :
  el_display <$> alter (with_display v) i d = <[i := v]> (el_display <$> d).
Proof.
  revert i. induction d as [|e d IH]; intros [|i]; try done.
  rewrite alter_cons_S, !fmap_cons. simpl. by rewrite IH.
Qed.

(** X22. A change of the scope radio shows exactly one of the two groups
    of fields: the individual fields for the value [individual], the
    enterprise fields for every other value.  Nothing else on the page is
    shown or hidden, and the session and the log are not touched. *)
Theorem onScopeChange_shows_one (i e : ref) (value : string) (w : world) :
  i ≠ e → (i < length (document w))%nat → (e < length (document w))%nat →
  let '(r, w') := onScopeChange (Some i) (Some e) value w in
  r = Return tt ∧
  displays w' !! i = Some (if String.eqb value "individual" then "block" else "none") ∧
  displays w' !! e = Some (if String.eqb value "individual" then "none" else "block") ∧
  (∀ k, k ≠ i → k ≠ e → displays w' !! k = displays w !! k) ∧
  sessionStorage w' = sessionStorage w ∧ log w' = log w.
Proof.
  intros Hne Hi He. rewrite onScopeChange_run. cbn zeta. unfold displays. simpl.
  rewrite !fmap_alter_display.
  assert (i < length (el_display <$> document w))%nat by by rewrite length_fmap.
  assert (e < length (el_display <$> document w))%nat by by rewrite length_fmap.
  repeat split.
  - rewrite list_lookup_insert_ne by done. by rewrite list_lookup_insert_eq.
  - by rewrite list_lookup_insert_eq by by rewrite length_insert.
  - intros k Hki Hke. by rewrite !list_lookup_insert_ne by done.
Qed.

Lemma onScopeChange_shows_one_witness :
  let w := World ∅ full_page [] in
  let '(r, w') := onScopeChange (Some 17%nat) (Some 18%nat) "enterprise" w in
  r = Return tt ∧
  displays w' !! 17%nat = Some "none" ∧ displays w' !! 18%nat = Some "block".
Proof.
  pose proof (onScopeChange_shows_one 17 18 "enterprise" (World ∅ full_page [])
                ltac:(lia) ltac:(simpl; lia) ltac:(simpl; lia)) as H.
  destruct (onScopeChange (Some 17%nat) (Some 18%nat) "enterprise" (World ∅ full_page []))
    as [r w'].
  destruct H as (Hr & Hi & He & _). by repeat split.
Defined.

(** X23. When a group of fields is missing from the page, a change of the
    scope radio throws a [TypeError]: at once when the individual fields
    are missing, and after it has set the display of the individual fields
    when only the enterprise fields are missing. *)
Theorem onScopeChange_missing_group (enterpriseFields : option ref) (value : string)
    (w : world) :
  onScopeChange None enterpriseFields value w = (Throw TypeError, w) ∧
  ∀ i, (i < length (document w))%nat →
    let '(r, w') := onScopeChange (Some i) None value w in
    r = Throw TypeError ∧
    displays w' !! i = Some (if String.eqb value "individual" then "block" else "none").
Proof.
  split; [by rewrite onScopeChange_run|].
  intros i Hi. rewrite onScopeChange_run. cbn zeta. unfold displays. simpl.
  rewrite fmap_alter_display. split; [done|].
  by rewrite list_lookup_insert_eq by by rewrite length_fmap.
Qed.

Lemma onScopeChange_missing_group_witness :
  let w := World ∅ full_page [] in
  let '(r, w') := onScopeChange (Some 17%nat) None "individual" w in
  r = Throw TypeError ∧ displays w' !! 17%nat = Some "block".
Proof.
  exact (proj2 (onScopeChange_missing_group None "individual" (World ∅ full_page []))
           17%nat ltac:(simpl; lia)).
Defined.

(** ** The load listener *)

Lemma listen_by_id_then id type h (k : L unit) s :
  (listen_by_id id type h ;; k) s =
    match element_by_id id (document (loading_page s)) with
    | Some target =>
        k (Loading (loading_page s) (listeners s ++ [Listener target type h]))
    | None => (Throw TypeError, s)
    end.
Proof.
  unfold listen_by_id, lift, addEventListener, getElementById, deref, throw,
    mbind, L_bind, M_bind, mret, M_ret. cbn.
  destruct (element_by_id _ _); cbn; [done | by destruct s].
Qed.

Lemma forEach_addEventListener (radios : list ref) type h s :
  forEach radios (λ radio, addEventListener radio type (h radio)) s =
    (Return tt,
     Loading (loading_page s)
       (listeners s ++ ((λ radio, Listener radio type (h radio)) <$> radios))).
Proof.
  revert s. induction radios as [|radio radios IH]; intros s; simpl.
  - rewrite app_nil_r. by destruct s.
  - unfold mbind, L_bind, addEventListener at 1. simpl. rewrite IH. simpl.
    by rewrite <- app_assoc.
Qed.

(** The load listener after its first step, on a page that has every
    target of the table: all listeners are registered, then the scope
    radio is looked at. *)
Lemma DOMContentLoaded_listener_wired s w1 ls :
  onDOMContentLoaded (loading_page s) = (Return tt, w1) →
  wire_all (document w1) wiring = Some ls →
  let all := (listeners s ++ ls ++ scope_listeners (document w1))%list in
  let find id := element_by_id id (document w1) in
  DOMContentLoaded_listener s =
    match find "scope-individual" with
    | None => (Throw TypeError, Loading w1 all)
    | Some scopeIndividual =>
        if default false (el_checked <$> document w1 !! scopeIndividual) then
          match find "individual-fields", find "enterprise-fields" with
          | Some i, Some e =>
              (Return tt,
               Loading (World (sessionStorage w1)
                          (alter (with_display "none") e
                             (alter (with_display "block") i (document w1)))
                          (log w1)) all)
          | Some i, None =>
              (Throw TypeError,
               Loading (World (sessionStorage w1)
                          (alter (with_display "block") i (document w1)) (log w1)) all)
          | None, _ => (Throw TypeError, Loading w1 all)
          end
        else (Return tt, Loading w1 all)
    end.
Proof.
  intros H1 Hwire. cbn zeta. unfold DOMContentLoaded_listener.
  unfold mbind at 1, L_bind at 1, lift at 1. rewrite H1.
  unfold wire_all, wiring in Hwire.
  repeat (rewrite listen_by_id_then; cbn [loading_page listeners];
          match type of Hwire with
          | context [element_by_id ?p ?d] => destruct (element_by_id p d); [|done]
          end; cbn [fmap option_fmap option_map] in Hwire).
  injection Hwire as <-.
  unfold mbind at 1 2 3 4, L_bind at 1 2 3 4, lift at 1 2 3, querySelectorAll_inputs,
    getElementById.
  cbn [loading_page listeners].
  rewrite (forEach_addEventListener _ "change" (λ _, ScopeChange _ _)).
  cbn [loading_page listeners].
  unfold scope_listeners. rewrite <- !app_assoc. simpl.
  unfold lift, read_checked, getElementById, deref, update_element, throw,
    mbind, L_bind, M_bind, mret, M_ret, L_ret. cbn.
  destruct (element_by_id "scope-individual" (document w1))
    as [si|]; cbn; [|done].
  destruct (default false (el_checked <$> document w1 !! si)); cbn; [|done].
  destruct (element_by_id "individual-fields" (document w1));
    cbn; [|done].
  by destruct (element_by_id "enterprise-fields" (document w1)).
Qed.

Lemma DOMContentLoaded_listener_aborted s w1 :
  onDOMContentLoaded (loading_page s) = (Return tt, w1) →
  wire_all (document w1) wiring = None →
  DOMContentLoaded_listener s =
    (Throw TypeError, Loading w1 (listeners s ++ wire_prefix (document w1) wiring)).
Proof.
  intros H1 Hwire. unfold DOMContentLoaded_listener.
  unfold mbind at 1, L_bind at 1, lift at 1. rewrite H1.
  unfold wire_all, wire_prefix, wiring in *.
  repeat (rewrite listen_by_id_then; cbn [loading_page listeners];
          match type of Hwire with
          | context [element_by_id ?p ?d] =>
              destruct (element_by_id p d);
              [| rewrite <- ?app_assoc, ?app_nil_r; reflexivity ]
          end; cbn [fmap option_fmap option_map] in Hwire).
  done.
Qed.

(** X24. On a page that has the seven elements of navigation and forms,
    the load listener registers, in this order, the seven listeners of the
    table and then one [change] listener on every scope radio, each with
    the two groups of fields as the page has them.  It then returns
    exactly when the page has the [scope-individual] radio and, if that
    radio is checked, both groups of fields; otherwise it throws a
    [TypeError], with all listeners registered all the same. *)
Theorem DOMContentLoaded_wires (s : loading) (w1 : world) (ls : list listener) :
  onDOMContentLoaded (loading_page s) = (Return tt, w1) →
  wire_all (document w1) wiring = Some ls →
  let find id := element_by_id id (document w1) in
  let '(r, s') := DOMContentLoaded_listener s in
  listeners s' = (listeners s ++ ls ++ scope_listeners (document w1))%list ∧
  (r = Return tt ∨ r = Throw TypeError) ∧
  (r = Return tt ↔
     ∃ scopeIndividual, find "scope-individual" = Some scopeIndividual ∧
       (default false (el_checked <$> document w1 !! scopeIndividual) = true →
        is_Some (find "individual-fields") ∧ is_Some (find "enterprise-fields"))).
Proof.
  intros H1 Hwire. cbn zeta. rewrite (DOMContentLoaded_listener_wired s w1 ls H1 Hwire).
  cbn zeta.
  destruct (element_by_id "scope-individual" (document w1))
    as [si|].
  - destruct (default false (el_checked <$> document w1 !! si)) eqn:Hchecked.
    + destruct (element_by_id "individual-fields" (document w1)),
        (element_by_id "enterprise-fields" (document w1));
        (split; [done|]); (split; [by eauto|]).
      * split; [|done]. intros _. exists si. split; [done|]. rewrite Hchecked. eauto.
      * split; [done|]. intros (? & [= <-] & H). rewrite Hchecked in H.
        destruct (H eq_refl) as [_ [? ?]]. done.
      * split; [done|]. intros (? & [= <-] & H). rewrite Hchecked in H.
        destruct (H eq_refl) as [[? ?] _]. done.
      * split; [done|]. intros (? & [= <-] & H). rewrite Hchecked in H.
        destruct (H eq_refl) as [[? ?] _]. done.
    + split; [done|]. split; [by left|]. split; [|done]. intros _. exists si.
      split; [done|]. by rewrite Hchecked.
  - split; [done|]. split; [by right|]. split; [done|]. by intros (? & ? & _).
Qed.

Lemma DOMContentLoaded_wires_witness :
  let s := Loading (World ∅ full_page []) [] in
  let '(r, s') := DOMContentLoaded_listener s in
  length (listeners s') = 9%nat ∧ (r = Return tt ∨ r = Throw TypeError).
Proof.
  pose proof (DOMContentLoaded_wires (Loading (World ∅ full_page []) [])
                (onDOMContentLoaded (World ∅ full_page [])).2
                (default [] (wire_all full_page wiring)) eq_refl eq_refl) as H.
  cbn zeta in H. cbv zeta.
  destruct (DOMContentLoaded_listener (Loading (World ∅ full_page []) [])) as [r s'].
  destruct H as (Hl & Hr & _). split; [|exact Hr].
  rewrite Hl. vm_compute. reflexivity.
Defined.

(** X25. On a page that lacks one of the seven elements of navigation and
    forms, the load listener throws a [TypeError] at that element: the
    listeners before it in the table are registered, the ones after it and
    the listeners of the scope radios are not.  When already the first
    view cannot be shown without an exception, nothing is registered. *)
Theorem DOMContentLoaded_stops (s : loading) :
  match onDOMContentLoaded (loading_page s) with
  | (Return _, w1) =>
      wire_all (document w1) wiring = None →
      DOMContentLoaded_listener s =
        (Throw TypeError, Loading w1 (listeners s ++ wire_prefix (document w1) wiring))
  | (Throw e, w1) => DOMContentLoaded_listener s = (Throw e, Loading w1 (listeners s))
  end.
Proof.
  destruct (onDOMContentLoaded (loading_page s)) as [[[]|e] w1] eqn:H1.
  - by apply DOMContentLoaded_listener_aborted.
  - unfold DOMContentLoaded_listener.
    unfold mbind at 1, L_bind at 1, lift at 1. by rewrite H1.
Qed.

Lemma DOMContentLoaded_stops_witness :
  let page := (sample_page ++ [block "a" "nav-sign-up"; block "a" "nav-sign-in"])%list in
  let s := Loading (World ∅ page []) [] in
  DOMContentLoaded_listener s =
    (Throw TypeError,
     Loading (onDOMContentLoaded (World ∅ page [])).2
       [Listener 8 "click" (ShowView "registration-view");
        Listener 9 "click" (ShowView "login-view")]).
Proof.
  exact (DOMContentLoaded_stops
           (Loading (World ∅ (sample_page ++ [block "a" "nav-sign-up";
                                              block "a" "nav-sign-in"])%list []) [])
           eq_refl).
Defined.

(** X26. The fields shown at first.  When the load listener gets as far as
    the scope radios and [scope-individual] is checked, the individual
    fields are displayed and the enterprise fields are hidden; when it is
    not checked, the display of the page is left as the first view made
    it. *)
Theorem DOMContentLoaded_scope (s : loading) (w1 : world) (ls : list listener)
    (scopeIndividual i e : ref) :
  onDOMContentLoaded (loading_page s) = (Return tt, w1) →
  wire_all (document w1) wiring = Some ls →
  element_by_id "scope-individual" (document w1)
    = Some scopeIndividual →
  element_by_id "individual-fields" (document w1) = Some i →
  element_by_id "enterprise-fields" (document w1) = Some e →
  let w' := loading_page (DOMContentLoaded_listener s).2 in
  displays w' =
    if default false (el_checked <$> document w1 !! scopeIndividual)
    then <[e := "none"]> (<[i := "block"]> (displays w1))
    else displays w1.
Proof.
  intros H1 Hwire Hsi Hi He. cbn zeta.
  rewrite (DOMContentLoaded_listener_wired s w1 ls H1 Hwire). cbn zeta.
  rewrite Hsi, Hi, He.
  destruct (default false _); simpl; [|done].
  unfold displays. simpl. by rewrite !fmap_alter_display.
Qed.

Lemma DOMContentLoaded_scope_witness :
  let s := Loading (World ∅ full_page []) [] in
  let w1 := (onDOMContentLoaded (World ∅ full_page [])).2 in
  displays (loading_page (DOMContentLoaded_listener s).2)
    = <[18%nat := "none"]> (<[17%nat := "block"]> (displays w1)).
Proof.
  exact (DOMContentLoaded_scope (Loading (World ∅ full_page []) [])
           (onDOMContentLoaded (World ∅ full_page [])).2
           (default [] (wire_all full_page wiring)) 15%nat 17%nat 18%nat
           eq_refl eq_refl eq_refl eq_refl eq_refl).
Defined.
